(** * pyrho.core.charge_density

    A shallow embedding of [src/pyrho/core/charge_density.py]: the
    [ChargeDensity] dataclass (construction, normalisation, export, supercell
    transform) and the text transform [multiply_aug].

    Conventions of the embedding.
    - A Python [str] is a Rocq [string]; its characters are the code points
      below 256.
    - A numpy [float64] is a real number ([R]): rounding, infinities and NaN
      are not represented.
    - A Python [dict] with [str] keys is a [gmap string _]; the dict object
      handed to the constructor lives in a heap, because the dataclass keeps
      the caller's reference.
    - A raised exception is the [Raise] case of [result]. *)

From Stdlib Require Import Reals Lra Lia ZArith List String Ascii DecimalString Zfloor.
From stdpp Require Import gmap strings list fin_maps functions.

(** ** Exceptions and results *)

(** The exceptions the module can raise.  [ValueError] and
    [NotImplementedError] are raised by the source itself; [IndexError],
    [AttributeError] and [TypeError] come from the Python operations it
    performs; [ShapeError] is the specification's name for the failure of the
    resampling routine, which is not part of the file. *)
Inductive exn : Set :=
| ValueError
| NotImplementedError
| IndexError
| AttributeError
| TypeError
| ShapeError.

Inductive result (A : Type) : Type :=
| Ok (a : A)
| Raise (e : exn).
Arguments Ok {A} a.
Arguments Raise {A} e.

Definition rbind {A B} (r : result A) (k : A -> result B) : result B :=
  match r with
  | Ok a => k a
  | Raise e => Raise e
  end.

#[global] Instance result_ret : MRet result := fun A a => Ok a.
#[global] Instance result_bind : MBind result := fun A B k r => rbind r k.

(** [for x in l: st = f st x], stopping at the first exception. *)
Fixpoint for_each {A S} (f : S -> A -> result S) (l : list A) (st : S) : result S :=
  match l with
  | [] => Ok st
  | x :: l' => st' ← f st x; for_each f l' st'
  end.

(** [for _ in range(n): st = f st]. *)
Fixpoint for_range {S} (n : nat) (f : S -> result S) (st : S) : result S :=
  match n with
  | O => Ok st
  | S n' => st' ← f st; for_range n' f st'
  end.

(** ** Python string operations *)

Module Str.

(** [str.isspace] on the code points below 256. *)
Definition isspace (c : ascii) : bool :=
  let n := nat_of_ascii c in
  ((9 <=? n) && (n <=? 13)) || ((28 <=? n) && (n <=? 32))
  || (n =? 133) || (n =? 160).

(** [str.lower] on one character (code points below 256). *)
Definition lower (c : ascii) : ascii :=
  let n := nat_of_ascii c in
  if ((65 <=? n) && (n <=? 90))
     || ((192 <=? n) && (n <=? 222) && negb (n =? 215))
  then ascii_of_nat (n + 32) else c.

Definition snoc (s : string) (c : ascii) : string := s +:+ String c "".

Definition flush (cur : string) : list string :=
  match cur with
  | EmptyString => []
  | _ => [cur]
  end.

(** [s.split()]: the maximal runs of non-whitespace characters. *)
Fixpoint split_go (cur : string) (s : string) : list string :=
  match s with
  | EmptyString => flush cur
  | String c s' =>
      if isspace c then flush cur ++ split_go "" s'
      else split_go (snoc cur c) s'
  end.

Definition split (s : string) : list string := split_go "" s.

(** [pat in s]. *)
Fixpoint contains (pat s : string) : bool :=
  String.prefix pat s ||
  match s with
  | EmptyString => false
  | String _ s' => contains pat s'
  end.

Fixpoint spaces (n : nat) : string :=
  match n with
  | O => ""
  | S n' => String " " (spaces n')
  end.

(** [f"{s:>w}"]: right-aligned in a field of width [w]. *)
Definition rjust (w : nat) (s : string) : string :=
  spaces (w - String.length s) +:+ s.

(** [str(n)] for a non-negative [int]. *)
Definition of_nat (n : nat) : string :=
  NilZero.string_of_uint (Nat.to_uint n).

Definition newline : string := String "010" "".

(** A whitespace-free, non-empty string: what [split] returns. *)
Fixpoint no_space (s : string) : bool :=
  match s with
  | EmptyString => true
  | String c s' => negb (isspace c) && no_space s'
  end.

Definition token (s : string) : Prop := s <> "" /\ no_space s = true.

End Str.

(** ** [multiply_aug] *)

Record aug_state : Type := {
  res : list string;
  cur_block : list string;
  cnt : nat
}.

(** The header line the source writes:
    [f"augmentation occupancies{cnt:>4}{t:>4}\n"]. *)
Definition aug_header (cnt : nat) (t : string) : string :=
  "augmentation occupancies" +:+ Str.rjust 4 (Str.of_nat cnt)
  +:+ Str.rjust 4 t +:+ Str.newline.

(** One turn of [for _ in range(factor)]: [cnt += 1], rewrite
    [cur_block[0]] from its own last field, [res.extend(cur_block)]. *)
Definition emit_once (st : aug_state) : result aug_state :=
  let cnt' := S (cnt st) in
  match cur_block st with
  | [] => Raise IndexError
  | h :: body =>
      match list.last (Str.split h) with
      | None => Raise IndexError
      | Some t =>
          let blk := aug_header cnt' t :: body in
          Ok {| res := res st ++ blk; cur_block := blk; cnt := cnt' |}
      end
  end.

Definition emit (factor : Z) (st : aug_state) : result aug_state :=
  for_range (Z.to_nat factor) emit_once st.

(** The body of [for ll in data_aug]. *)
Definition scan_line (factor : Z) (st : aug_state) (ll : string)
  : result aug_state :=
  if Str.contains "augmentation" ll then
    st' ← match cur_block st with
          | [] => Ok st
          | _ :: _ => emit factor st
          end;
    Ok {| res := res st'; cur_block := [ll]; cnt := cnt st' |}
  else
    Ok {| res := res st; cur_block := cur_block st ++ [ll]; cnt := cnt st |}.

(** The loop never breaks, so its [else] branch always runs. *)
Definition multiply_aug (data_aug : list string) (factor : Z)
  : result (list string) :=
  st ← for_each (scan_line factor) data_aug
         {| res := []; cur_block := []; cnt := 0 |};
  st' ← emit factor st;
  Ok (res st').

(** *** The renumbering the specification describes *)

Definition marker : string := "augmentation".

(** A block of the input: the line that carries the marker, the trailing
    field of that line, and the lines up to the next marker. *)
Record block : Type := {
  hdr : string;
  field : string;
  body : list string
}.

Definition trailing (h : string) : option string := list.last (Str.split h).

Definition block_ok (b : block) : bool :=
  Str.contains marker (hdr b)
  && bool_decide (trailing (hdr b) = Some (field b))
  && forallb (fun l => negb (Str.contains marker l)) (body b).

Definition block_lines (b : block) : list string := hdr b :: body b.

Definition lines_of (bs : list block) : list string :=
  concat (map block_lines bs).

(** The [k]-th block of the output (counting from 0): header number
    [k + 1], the trailing field of the source block, its other lines. *)
Definition emitted (k : nat) (b : block) : list string :=
  aug_header (S k) (field b) :: body b.

(** Section 4.6 in its own words: every block, in input order, [factor]
    times in a row; the headers numbered 1, 2, 3, ... across the whole
    output, each keeping the trailing field of its block; the other lines
    verbatim. *)
Definition renumber (factor : nat) (bs : list block) : list string :=
  concat (imap emitted (concat (map (replicate factor) bs))).

(** The same output, produced block by block with a running count. *)
Fixpoint copies (n idx : nat) (t : string) (body : list string) : list string :=
  match n with
  | O => []
  | S n' => (aug_header (S idx) t :: body) ++ copies n' (S idx) t body
  end.

Fixpoint renumber_from (factor idx : nat) (bs : list block) : list string :=
  match bs with
  | [] => []
  | b :: bs' =>
      copies factor idx (field b) (body b)
      ++ renumber_from factor (idx + factor) bs'
  end.

(** The example of section 8. *)
Definition spec_example : list string :=
  ["augmentation occ 1 4"; "0.1 0.2"; "augmentation occ 2 4"; "0.3 0.4"].

Definition spec_blocks : list block :=
  [ {| hdr := "augmentation occ 1 4"; field := "4"; body := ["0.1 0.2"] |};
    {| hdr := "augmentation occ 2 4"; field := "4"; body := ["0.3 0.4"] |} ].

(** One block whose trailing field fills its four-wide column. *)
Definition wide_block : block :=
  {| hdr := "augmentation occupancies 1 1234"; field := "1234";
     body := ["0.5"] |}.

(** ** Arrays and the numpy operations the module uses *)

Definition vec3 (A : Type) : Type := (A * A * A)%type.
Definition mat3 (A : Type) : Type := vec3 (vec3 A).

Definition vec3_map {A B} (f : A -> B) (v : vec3 A) : vec3 B :=
  let '(a, b, c) := v in (f a, f b, f c).

Definition vec3_list {A} (v : vec3 A) : list A :=
  let '(a, b, c) := v in [a; b; c].

Definition mat3_map {A B} (f : A -> B) (m : mat3 A) : mat3 B :=
  vec3_map (vec3_map f) m.

(** The nine entries, row by row. *)
Definition mat3_list {A} (m : mat3 A) : list A :=
  let '(r0, r1, r2) := m in vec3_list r0 ++ vec3_list r1 ++ vec3_list r2.

#[global] Instance Rle_decision : RelDecision Rle := Rle_dec.
#[global] Instance Rlt_decision : RelDecision Rlt := Rlt_dec.

(** An [ndarray] of reals: its shape and its entries in row-major order. *)
Record ndarray : Type := {
  shape : list nat;
  flat : list R
}.

Module np.

(** numpy's default tolerances of [isclose] and [allclose]. *)
Definition rtol : R := 1e-5.
Definition atol : R := 1e-8.

(** [np.isclose(a, b)]: [absolute(a - b) <= atol + rtol * absolute(b)]. *)
Definition isclose (a b : R) : bool :=
  bool_decide (Rabs (a - b) <= atol + rtol * Rabs b)%R.

(** [np.allclose(a, b)] on two 3x3 matrices. *)
Definition allclose (a b : mat3 R) : bool :=
  forallb (fun '(x, y) => isclose x y) (zip (mat3_list a) (mat3_list b)).

(** [np.round] on one entry: to the nearest integer, halves to the even
    one.  The value is the integer it denotes. *)
Definition rint (x : R) : Z :=
  let f := Zfloor x in
  let d := (x - IZR f)%R in
  if bool_decide (d < 1 / 2)%R then f
  else if bool_decide (1 / 2 < d)%R then (f + 1)%Z
  else if Z.even f then f else (f + 1)%Z.

Definition round (x : R) : R := IZR (rint x).

(** [.astype(int)] on one entry: truncation towards zero. *)
Definition astype_int (x : R) : Z :=
  if bool_decide (0 <= x)%R then Zfloor x else Zceil x.

(** [np.prod] of the three cell lengths. *)
Definition prod (v : vec3 R) : R :=
  let '(a, b, c) := v in (a * b * c)%R.

(** [arr / v] and [arr * v] with a scalar [v]. *)
Definition div (a : ndarray) (v : R) : ndarray :=
  {| shape := shape a; flat := map (fun x => (x / v)%R) (flat a) |}.

Definition mul (a : ndarray) (v : R) : ndarray :=
  {| shape := shape a; flat := map (fun x => (x * v)%R) (flat a) |}.

End np.

(** Python's [max(a, b)]: [b] when [b > a], else [a]. *)
Definition py_max (a b : R) : R := if bool_decide (a < b)%R then b else a.

(** ** Collaborators outside the file *)

(** pymatgen's [Structure] with the operations the module calls, and the
    resampling kernel behind [get_transformed_data].  [lattice] is the
    matrix of [structure.lattice], [abc] is [structure.lattice.abc],
    [num_sites] is [len(structure)], [supercell s m] is [s * m]. *)
Class External : Type := {
  Structure : Type;
  lattice : Structure -> mat3 R;
  volume : Structure -> R;
  abc : Structure -> vec3 R;
  num_sites : Structure -> nat;
  translate_sites : Structure -> list nat -> vec3 R -> Structure;
  supercell : Structure -> mat3 Z -> Structure;
  resample : mat3 R -> ndarray -> mat3 Z -> vec3 R -> list Z -> Z -> ndarray
}.

(** [pyrho.core.pgrid.PGrid], as far as this module reads it. *)
Module PGrid.
Record t : Type := {
  grid_data : ndarray;
  lattice : mat3 R
}.
End PGrid.

(** ** The object store *)

(** What a [pgrids] entry can hold at run time: the annotation promises a
    [PGrid], [__post_init__] stores an array. *)
Inductive value : Type :=
| VPGrid (g : PGrid.t)
| VArray (a : ndarray).

Definition loc : Type := positive.

(** The mutable state the module touches: the dict objects, the next free
    address, and the warnings issued so far. *)
Record world : Type := {
  heap : gmap loc (gmap string value);
  next : loc;
  warnings : list string
}.

(** The dict at address [l]. *)
Definition deref (w : world) (l : loc) : gmap string value := heap w !!! l.

(** The dict at address [l] becomes [d]. *)
Definition store (l : loc) (d : gmap string value) (w : world) : world :=
  {| heap := <[l := d]> (heap w); next := next w; warnings := warnings w |}.

(** [d[k] = v] on the dict at address [l]. *)
Definition setitem (l : loc) (k : string) (v : value) (w : world) : world :=
  store l (<[k := v]> (deref w l)) w.

(** A fresh dict object holding [d]. *)
Definition alloc (d : gmap string value) (w : world) : loc * world :=
  (next w,
   {| heap := <[next w := d]> (heap w);
      next := Pos.succ (next w);
      warnings := warnings w |}).

Definition warn (msg : string) (w : world) : world :=
  {| heap := heap w; next := next w; warnings := warnings w ++ [msg] |}.

(** [v.lattice] and [v.grid_data]: an array has neither attribute. *)
Definition get_lattice (v : value) : result (mat3 R) :=
  match v with
  | VPGrid g => Ok (PGrid.lattice g)
  | VArray _ => Raise AttributeError
  end.

Definition get_grid_data (v : value) : result ndarray :=
  match v with
  | VPGrid g => Ok (PGrid.grid_data g)
  | VArray _ => Raise AttributeError
  end.

(** [s[0]]. *)
Definition first_char (s : string) : result ascii :=
  match s with
  | EmptyString => Raise IndexError
  | String c _ => Ok c
  end.

(** The two schemes of section 4.2, selected by the first character of the
    name: none for no name or a name in n or N, volume-scaled for a name in
    v or V; any other first character is not a scheme. *)
Inductive scheme : Set :=
| SchemeNone
| SchemeVolume.

Definition scheme_of (normalization : option string) : result scheme :=
  match normalization with
  | None => Ok SchemeNone
  | Some EmptyString => Raise IndexError
  | Some (String c _) =>
      if Ascii.eqb c "n" || Ascii.eqb c "N" then Ok SchemeNone
      else if Ascii.eqb c "v" || Ascii.eqb c "V" then Ok SchemeVolume
      else Raise NotImplementedError
  end.

(** The scaling of one array under a scheme, with [op] the division
    (forward) or the product (inverse) by the cell volume [vol]. *)
Definition scaled (op : ndarray -> R -> ndarray) (vol : R) (sc : scheme)
    (a : ndarray) : ndarray :=
  match sc with
  | SchemeNone => a
  | SchemeVolume => op a vol
  end.


(** ** [ChargeDensity] *)

Section ChargeDensity.

Context {ext : External}.

(** The dataclass: [pgrids] is a reference to the dict the caller passed. *)
Record ChargeDensity : Type := {
  pgrids : loc;
  structure : Structure;
  normalization : option string
}.

Definition _normalize_data (self : ChargeDensity) (grid_data : ndarray)
  : result ndarray :=
  match normalization self with
  | None => Ok grid_data
  | Some s =>
      c ← first_char s;
      if Ascii.eqb (Str.lower c) "n" then Ok grid_data
      else if Ascii.eqb (Str.lower c) "v"
           then Ok (np.div grid_data (volume (structure self)))
           else Raise NotImplementedError
  end.

Definition _scale_data (self : ChargeDensity) (data : ndarray)
    (normalization : option string) : result ndarray :=
  match normalization with
  | None => Ok data
  | Some s =>
      c ← first_char s;
      if Ascii.eqb (Str.lower c) "n" then Ok data
      else if Ascii.eqb (Str.lower c) "v"
           then Ok (np.mul data (volume (structure self)))
           else Raise NotImplementedError
  end.

(** [[self.pgrids[key].lattice for key in self.pgrids.keys()]]. *)
Definition pgrids_lattices (d : gmap string value) : result (list (mat3 R)) :=
  map_fold (fun _ v acc => ls ← acc; lat ← get_lattice v; Ok (lat :: ls))
           (Ok []) d.

(** One turn of [for k, v in self.pgrids.items()]:
    [self.pgrids[k] = self._normalize_data(v.grid_data)]. *)
Definition normalize_item (self : ChargeDensity) (k : string) (v : value)
    (acc : world * result unit) : world * result unit :=
  match acc with
  | (w, Raise e) => (w, Raise e)
  | (w, Ok _) =>
      match g ← get_grid_data v; _normalize_data self g with
      | Raise e => (w, Raise e)
      | Ok a => (setitem (pgrids self) k (VArray a) w, Ok tt)
      end
  end.

Definition __post_init__ (self : ChargeDensity) (w : world)
  : world * result unit :=
  let d := deref w (pgrids self) in
  match pgrids_lattices d with
  | Raise e => (w, Raise e)
  | Ok lattices =>
      if forallb (np.allclose (lattice (structure self))) lattices
      then map_fold (normalize_item self) (w, Ok tt) d
      else (w, Raise ValueError)
  end.

(** [ChargeDensity(pgrids, structure, normalization)]: the generated
    [__init__] stores the three arguments and calls [__post_init__]. *)
Definition new (pgrids : loc) (structure : Structure)
    (normalization : option string) (w : world)
  : world * result ChargeDensity :=
  let self := {| pgrids := pgrids; structure := structure;
                 normalization := normalization |} in
  match __post_init__ self w with
  | (w', Ok _) => (w', Ok self)
  | (w', Raise e) => (w', Raise e)
  end.

(** What [to_Chgcar] hands to pymatgen's [Chgcar]. *)
Record Chgcar : Type := {
  chg_structure : Structure;
  chg_data : gmap string ndarray
}.

(** One turn of [for k, v in self.pgrids.items()]:
    [data_dict[k] = self._scale_data(v, normalization="vasp")].
    [_scale_data] multiplies an array; a [PGrid] has no product with a
    float. *)
Definition scale_item (self : ChargeDensity) (k : string) (v : value)
    (acc : result (gmap string ndarray)) : result (gmap string ndarray) :=
  data_dict ← acc;
  a ← match v with
      | VArray a => _scale_data self a (Some "vasp")
      | VPGrid _ => Raise TypeError
      end;
  Ok (<[k := a]> data_dict).

Definition to_Chgcar (self : ChargeDensity) (w : world) : result Chgcar :=
  data_dict ← map_fold (scale_item self) (Ok ∅) (deref w (pgrids self));
  Ok {| chg_structure := structure self; chg_data := data_dict |}.

(** *** The supercell transform *)

Inductive grid_spec : Type :=
| Count (n : Z)
| Dims (dims : list Z).

Definition sc_mat_warning : string := "The `sc_mat` is not integer valued.".

(** [mult = (np.prod(lengths) / ngrid) ** (1 / 3)] with
    [ngrid = grid_out / new_structure.volume]. *)
Definition grid_mult (lengths : vec3 R) (vol : R) (grid_out : Z) : R :=
  let ngrid := (IZR grid_out / vol)%R in
  Rpower (np.prod lengths / ngrid) (1 / 3).

(** [[int(math.floor(max(l_ / mult, 1))) for l_ in lengths]]. *)
Definition derive_grid (lengths : vec3 R) (vol : R) (grid_out : Z) : list Z :=
  let mult := grid_mult lengths vol grid_out in
  map (fun l_ => Zfloor (py_max (l_ / mult) 1)) (vec3_list lengths).

(** Modelled from the spec: [get_transformed_data] is called by
    [get_transformed] but is not defined in the file.  Per section 4.4 it
    resamples every named grid onto the new lattice at resolution
    [grid_out], and fails with [ShapeError] when [grid_out] is not three
    positive dimensions. *)
Definition get_transformed_data (self : ChargeDensity) (sc_mat : mat3 Z)
    (origin : vec3 R) (grid_out : list Z) (up_sample : Z) (w : world)
  : result (gmap string ndarray) :=
  if bool_decide (length grid_out = 3%nat)
     && forallb (fun d => bool_decide (0 < d)%Z) grid_out
  then
    Ok ((fun v =>
           let data := match v with
                       | VPGrid g => PGrid.grid_data g
                       | VArray a => a
                       end in
           resample (lattice (structure self)) data sc_mat origin
                    grid_out up_sample)
        <$> deref w (pgrids self))
  else Raise ShapeError.

(** Modelled from the spec: [from_rho] is called by [get_transformed] but
    is not defined in the file.  Per section 4.4 step 3 the aggregate is
    constructed directly from the physical data with the normalization set
    to none internally, and carries the declared scheme afterwards. *)
Definition from_rho (rho : gmap string ndarray) (structure : Structure)
    (normalization : option string) (w : world)
  : world * result ChargeDensity :=
  let grids :=
    (fun a => VPGrid {| PGrid.grid_data := a;
                        PGrid.lattice := lattice structure |}) <$> rho in
  let '(l, w1) := alloc grids w in
  match new l structure None w1 with
  | (w2, Ok obj) =>
      (w2, Ok {| pgrids := pgrids obj; structure := ChargeDensity.structure obj;
                 normalization := normalization |})
  | (w2, Raise e) => (w2, Raise e)
  end.

Definition get_transformed (self : ChargeDensity) (sc_mat : mat3 R)
    (origin : vec3 R) (grid_out : grid_spec) (up_sample : Z) (w : world)
  : world * result ChargeDensity :=
  let w :=
    if negb (np.allclose (mat3_map np.round sc_mat) sc_mat)
    then warn sc_mat_warning w else w in
  let sc_mat := mat3_map (fun x => np.astype_int (np.round x)) sc_mat in
  let new_structure := structure self in
  let new_structure :=
    translate_sites new_structure (seq 0 (num_sites new_structure))
                    (vec3_map Ropp origin) in
  let new_structure := supercell new_structure sc_mat in
  let lengths := abc new_structure in
  let grid_out :=
    match grid_out with
    | Count n => derive_grid lengths (volume new_structure) n
    | Dims dims => dims
    end in
  match get_transformed_data self sc_mat origin grid_out up_sample w with
  | Raise e => (w, Raise e)
  | Ok new_rho => from_rho new_rho new_structure (normalization self) w
  end.

(** *** Names for the statements about construction *)

(** Every grid's lattice is close to the structure's. *)
Definition lattices_agree (s : Structure) (m : gmap string PGrid.t) : Prop :=
  map_Forall (fun _ g => np.allclose (lattice s) (PGrid.lattice g) = true) m.

(** The entry a grid is rebound to by the normalization loop. *)
Definition stored (self : ChargeDensity) (sc : scheme) (g : PGrid.t) : value :=
  VArray (scaled np.div (volume (structure self)) sc (PGrid.grid_data g)).

(** *** Names for the intermediate values of [get_transformed] *)

(** [np.round(sc_mat).astype(int)]. *)
Definition round_sc_mat (sc_mat : mat3 R) : mat3 Z :=
  mat3_map (fun x => np.astype_int (np.round x)) sc_mat.

(** [new_structure]: the copy, translated by [-origin], times the rounded
    matrix. *)
Definition new_structure_of (self : ChargeDensity) (sc_mat : mat3 R)
    (origin : vec3 R) : Structure :=
  supercell
    (translate_sites (structure self)
       (seq 0 (num_sites (structure self))) (vec3_map Ropp origin))
    (round_sc_mat sc_mat).

(** The three dimensions [grid_out] resolves to. *)
Definition resolve_grid (new_structure : Structure) (grid_out : grid_spec)
  : list Z :=
  match grid_out with
  | Count n => derive_grid (abc new_structure) (volume new_structure) n
  | Dims dims => dims
  end.

(** The world after the integrality check of [sc_mat]. *)
Definition checked (sc_mat : mat3 R) (w : world) : world :=
  if negb (np.allclose (mat3_map np.round sc_mat) sc_mat)
  then warn sc_mat_warning w else w.

End ChargeDensity.

(** ** Concrete inputs *)

Definition det3 (m : mat3 R) : R :=
  let '((a, b, c), (d, e, f), (g, h, i)) := m in
  (a * (e * i - f * h) - b * (d * i - f * g) + c * (d * h - e * g))%R.

Definition norm3 (v : vec3 R) : R :=
  let '(a, b, c) := v in sqrt (a * a + b * b + c * c).

(** The integer combination [m . l] of the rows of [l]. *)
Definition comb3 (m : mat3 Z) (l : mat3 R) : mat3 R :=
  let '((a0, b0, c0), (a1, b1, c1), (a2, b2, c2)) := l in
  vec3_map
    (fun '(x, y, z) =>
       ((IZR x * a0 + IZR y * a1 + IZR z * a2)%R,
        (IZR x * b0 + IZR y * b1 + IZR z * b2)%R,
        (IZR x * c0 + IZR y * c1 + IZR z * c2)%R))
    m.

(** A structure without sites is its cell: the volume is the absolute
    determinant, the lengths are the norms of the rows, a supercell is the
    integer combination of the rows.  The resampling kernel of this instance
    returns a grid of zeros of the requested shape. *)
Definition cell_only : External :=
  {| Structure := mat3 R;
     lattice := fun m => m;
     volume := fun m => Rabs (det3 m);
     abc := fun m => vec3_map norm3 m;
     num_sites := fun _ => 0%nat;
     translate_sites := fun m _ _ => m;
     supercell := fun m sc => comb3 sc m;
     resample := fun _ _ _ _ dims _ =>
       {| shape := map Z.to_nat dims;
          flat := replicate (Z.to_nat (foldr Z.mul 1%Z dims)) 0%R |} |}.

Definition diag3 (a b c : R) : mat3 R :=
  ((a, 0, 0), (0, b, 0), (0, 0, c))%R.

(** A one-point grid holding the value [x] on the cell [l]. *)
Definition one_point (l : mat3 R) (x : R) : PGrid.t :=
  {| PGrid.grid_data := {| shape := [1; 1; 1]%nat; flat := [x] |};
     PGrid.lattice := l |}.

(** The caller's dict [{"total": PGrid}] at its address, nothing else. *)
Definition caller_loc : loc := 1%positive.

Definition caller_world (g : PGrid.t) : world :=
  {| heap := {[ caller_loc := {[ "total" := VPGrid g ]} ]};
     next := 2%positive;
     warnings := [] |}.

(** An aggregate on the cubic cell of side 2, as the constructor leaves it:
    the caller's dict holds the normalized array. *)
Definition cubic : mat3 R := diag3 2 2 2.

Definition built : @ChargeDensity cell_only :=
  @Build_ChargeDensity cell_only caller_loc cubic (Some "vasp").

Definition built_world : world :=
  {| heap :=
       {[ caller_loc :=
            {[ "total" :=
                 VArray {| shape := [1; 1; 1]%nat; flat := [1 / 8]%R |} ]} ]};
     next := 2%positive;
     warnings := [] |}.

Definition no_shift : vec3 R := (0, 0, 0)%R.

(** The matrix of the example of section 8. *)
Definition three_halves : mat3 R := diag3 (3 / 2) 1 1.


(** ** More of the module *)

(** The blocks the output of [multiply_aug] is made of: the blocks of the
    input, each [factor] times, under the headers the source writes. *)
Definition renumbered (factor : nat) (bs : list block) : list block :=
  imap (fun k b => {| hdr := aug_header (S k) (field b);
                      field := field b;
                      body := body b |})
       (concat (map (replicate factor) bs)).

(** [l[0]]. *)
Definition index0 {A} (l : list A) : result A :=
  match l with
  | [] => Raise IndexError
  | x :: _ => Ok x
  end.

(** [all(f(x) for x in l)]: the generator is consumed up to the first
    false value, and [f] is evaluated once per element consumed. *)
Fixpoint py_all {A} (f : A -> result bool) (l : list A) : result bool :=
  match l with
  | [] => Ok true
  | x :: l' => f x ≫= fun b : bool => if b then py_all f l' else Ok false
  end.

Module ChargeABC.

(** [ChargeABC.__post_init__], on the items of [self.pgrids] in the order
    of the dict; the result is the value bound to [self.lattice]. *)
Definition __post_init__ (pgrids : list (string * PGrid.t)) : result (mat3 R) :=
  let lattices := map (fun kv => PGrid.lattice (snd kv)) pgrids in
  py_all (fun lattice => l0 ← index0 lattices; Ok (np.allclose l0 lattice))
         lattices
  ≫= fun ok : bool => if negb ok then Raise ValueError else index0 lattices.

End ChargeABC.

(** * Properties *)

Example multiply_aug_spec_example :
  multiply_aug spec_example 2 =
  Ok [aug_header 1 "4"; "0.1 0.2"; aug_header 2 "4"; "0.1 0.2";
      aug_header 3 "4"; "0.3 0.4"; aug_header 4 "4"; "0.3 0.4"].
Proof. vm_compute. reflexivity. Qed.

Example aug_header_1_4 :
  aug_header 1 "4" = "augmentation occupancies   1   4" +:+ Str.newline.
Proof. reflexivity. Qed.

(** ** Strings *)

Lemma str_app_cons (x : ascii) (a b : string) :
  String x a +:+ b = String x (a +:+ b).
Proof. reflexivity. Qed.

Lemma str_app_nil_l (a : string) : "" +:+ a = a.
Proof. reflexivity. Qed.

Lemma str_app_assoc (a b c : string) : (a +:+ b) +:+ c = a +:+ (b +:+ c).
Proof.
  induction a as [|x a IH]; [reflexivity |].
  now rewrite !str_app_cons, IH.
Qed.

Lemma str_app_nil_r (a : string) : a +:+ "" = a.
Proof.
  induction a as [|x a IH]; [reflexivity |].
  now rewrite str_app_cons, IH.
Qed.

Lemma no_space_app (a b : string) :
  Str.no_space (a +:+ b) = Str.no_space a && Str.no_space b.
Proof.
  induction a as [|x a IH]; [reflexivity |].
  rewrite str_app_cons. simpl. now rewrite IH, andb_assoc.
Qed.

Lemma flush_token (cur : string) : cur <> "" -> Str.flush cur = [cur].
Proof. destruct cur; [congruence | reflexivity]. Qed.

(** A run of non-blank characters is consumed into the current field. *)
Lemma split_go_run (t cur s : string) :
  Str.no_space t = true ->
  Str.split_go cur (t +:+ s) = Str.split_go (cur +:+ t) s.
Proof.
  revert cur. induction t as [|c t IH]; intros cur Ht.
  - now rewrite str_app_nil_l, str_app_nil_r.
  - rewrite str_app_cons. simpl in *.
    apply andb_true_iff in Ht as [Hc Ht].
    apply negb_true_iff in Hc. rewrite Hc, IH by assumption.
    unfold Str.snoc. now rewrite str_app_assoc.
Qed.

(** Every field [split] returns is non-empty and free of blanks. *)
Lemma split_go_fields (s cur : string) :
  Str.no_space cur = true ->
  Forall Str.token (Str.split_go cur s).
Proof.
  revert cur. induction s as [|c s IH]; intros cur Hcur; simpl.
  - destruct cur; constructor; [|constructor]. split; [discriminate | assumption].
  - destruct (Str.isspace c) eqn:Hc.
    + apply Forall_app. split; [|now apply IH].
      destruct cur; constructor; [|constructor]. split; [discriminate | assumption].
    + apply IH. unfold Str.snoc. rewrite no_space_app, Hcur. simpl.
      now rewrite Hc.
Qed.

Lemma last_split_token (h t : string) :
  list.last (Str.split h) = Some t -> Str.token t.
Proof.
  intros Hl. apply last_Some in Hl as [l' Hl].
  pose proof (split_go_fields h "" eq_refl) as Hall.
  unfold Str.split in Hl. rewrite Hl in Hall.
  apply Forall_app in Hall as [_ Hall]. now inversion Hall.
Qed.

(** The last field of a line that ends in a blank, a field, a blank. *)
Lemma last_split_go (a t cur : string) (sp nl : ascii) :
  Str.isspace sp = true -> Str.isspace nl = true -> Str.token t ->
  list.last (Str.split_go cur (a +:+ String sp (t +:+ String nl ""))) = Some t.
Proof.
  intros Hsp Hnl [Hne Ht]. revert cur.
  induction a as [|c a IH]; intros cur.
  - rewrite str_app_nil_l. simpl. rewrite Hsp, split_go_run by assumption.
    simpl. rewrite Hnl. simpl.
    rewrite str_app_nil_l, (flush_token t) by assumption.
    now rewrite app_nil_r, last_snoc.
  - rewrite str_app_cons. simpl. destruct (Str.isspace c).
    + rewrite last_app, IH. reflexivity.
    + apply IH.
Qed.

Lemma spaces_succ (n : nat) : Str.spaces (S n) = Str.spaces n +:+ " ".
Proof.
  induction n as [|n IH]; [reflexivity |].
  change (String " " (Str.spaces (S n)) = String " " (Str.spaces n) +:+ " ").
  rewrite str_app_cons. f_equal. exact IH.
Qed.

(** Re-reading a header the source has written gives back its last field,
    as long as the field leaves a blank in its four-wide column. *)
Lemma aug_header_last (c : nat) (t : string) :
  Str.token t -> String.length t < 4 ->
  list.last (Str.split (aug_header c t)) = Some t.
Proof.
  intros Ht Hlen.
  destruct (4 - String.length t) as [|k] eqn:Hk; [lia |].
  assert (aug_header c t =
          ("augmentation occupancies" +:+ Str.rjust 4 (Str.of_nat c)
           +:+ Str.spaces k) +:+ String " " (t +:+ String "010" "")) as ->.
  { unfold aug_header, Str.rjust at 2. rewrite Hk, spaces_succ.
    unfold Str.newline. rewrite !str_app_assoc. reflexivity. }
  now apply last_split_go.
Qed.

(** ** [multiply_aug] *)

Lemma bind_Ok {A B} (a : A) (k : A -> result B) : (Ok a ≫= k) = k a.
Proof. reflexivity. Qed.

Lemma for_each_app {A S} (f : S -> A -> result S) (l1 l2 : list A) (st : S) :
  for_each f (l1 ++ l2) st = (for_each f l1 st ≫= for_each f l2).
Proof.
  revert st. induction l1 as [|x l1 IH]; intros st; simpl; [reflexivity |].
  destruct (f st x) as [st'|e]; simpl; [apply IH | reflexivity].
Qed.

Lemma scan_line_plain (factor : Z) (st : aug_state) (ll : string) :
  Str.contains marker ll = false ->
  scan_line factor st ll =
  Ok {| res := res st; cur_block := cur_block st ++ [ll]; cnt := cnt st |}.
Proof. unfold scan_line, marker. now intros ->. Qed.

Lemma scan_line_marker (factor : Z) (st : aug_state) (ll x : string)
    (xs : list string) :
  Str.contains marker ll = true ->
  cur_block st = x :: xs ->
  scan_line factor st ll =
  (st' ← emit factor st;
   Ok {| res := res st'; cur_block := [ll]; cnt := cnt st' |}).
Proof. unfold scan_line, marker. now intros -> ->. Qed.

(** Lines without the marker are appended to the current block. *)
Lemma scan_body (factor : Z) (ls : list string) (st : aug_state) :
  forallb (fun l => negb (Str.contains marker l)) ls = true ->
  for_each (scan_line factor) ls st =
  Ok {| res := res st; cur_block := cur_block st ++ ls; cnt := cnt st |}.
Proof.
  revert st. induction ls as [|l ls IH]; intros st Hls; simpl in *.
  - rewrite app_nil_r. now destruct st.
  - apply andb_true_iff in Hls as [Hl Hls]. apply negb_true_iff in Hl.
    rewrite scan_line_plain by assumption. simpl.
    rewrite IH by assumption. simpl. now rewrite <- app_assoc.
Qed.

Lemma emit_once_ok (st : aug_state) (h t : string) (bd : list string) :
  cur_block st = h :: bd ->
  trailing h = Some t ->
  emit_once st =
  Ok {| res := res st ++ aug_header (S (cnt st)) t :: bd;
        cur_block := aug_header (S (cnt st)) t :: bd;
        cnt := S (cnt st) |}.
Proof. unfold emit_once, trailing. now intros -> ->. Qed.

(** [for _ in range(n)] on a pending block: [n] numbered copies. *)
Lemma emit_copies (n : nat) (st : aug_state) (h t : string) (bd : list string) :
  cur_block st = h :: bd ->
  trailing h = Some t ->
  n <= 1 \/ String.length t < 4 ->
  exists h',
    for_range n emit_once st =
    Ok {| res := res st ++ copies n (cnt st) t bd;
          cur_block := h' :: bd;
          cnt := cnt st + n |}.
Proof.
  revert st h. induction n as [|n IH]; intros st h Hcur Ht Hn.
  - exists h. simpl. rewrite app_nil_r, Nat.add_0_r, <- Hcur. now destruct st.
  - cbn [for_range copies]. rewrite (emit_once_ok st h t bd Hcur Ht).
    rewrite bind_Ok. destruct n as [|n].
    + eexists. simpl. rewrite app_nil_r. repeat f_equal. lia.
    + assert (String.length t < 4) as Hlen by lia.
      edestruct (IH {| res := res st ++ aug_header (S (cnt st)) t :: bd;
                       cur_block := aug_header (S (cnt st)) t :: bd;
                       cnt := S (cnt st) |}) as [h' Hh'];
        [reflexivity | | right; exact Hlen | ].
      { apply aug_header_last; [|exact Hlen].
        now apply (last_split_token h). }
      exists h'. rewrite Hh'. cbn [res cnt]. f_equal.
      rewrite <- app_assoc. f_equal. lia.
Qed.

Lemma block_ok_inv (b : block) :
  block_ok b = true ->
  Str.contains marker (hdr b) = true
  /\ trailing (hdr b) = Some (field b)
  /\ forallb (fun l => negb (Str.contains marker l)) (body b) = true.
Proof.
  unfold block_ok. rewrite !andb_true_iff, bool_decide_eq_true. tauto.
Qed.

Lemma emit_block (factor : Z) (st : aug_state) (b : block) (bs : list block) :
  block_ok b = true ->
  (factor = 1%Z \/ Forall (fun b => String.length (field b) < 4) (b :: bs)) ->
  cur_block st = block_lines b ->
  exists h',
    emit factor st =
    Ok {| res := res st ++ copies (Z.to_nat factor) (cnt st) (field b) (body b);
          cur_block := h' :: body b;
          cnt := cnt st + Z.to_nat factor |}.
Proof.
  intros Hb Hw Hcur. apply block_ok_inv in Hb as (_ & Ht & _).
  apply (emit_copies _ st (hdr b)); [exact Hcur | exact Ht |].
  destruct Hw as [-> | Hw]; [left; simpl; lia |].
  right. now apply Forall_cons_1 in Hw as [? _].
Qed.

Lemma lines_of_cons (b : block) (bs : list block) :
  lines_of (b :: bs) = hdr b :: (body b ++ lines_of bs).
Proof. reflexivity. Qed.

Lemma for_each_cons {A S} (f : S -> A -> result S) (x : A) (l : list A) (st : S) :
  for_each f (x :: l) st = (f st x ≫= for_each f l).
Proof. reflexivity. Qed.

(** The scan with block [b] pending and the blocks [bs] still to read. *)
Lemma scan_blocks (factor : Z) (bs : list block) :
  forall (b : block) (st : aug_state),
    Forall (fun b => block_ok b = true) (b :: bs) ->
    (factor = 1%Z \/ Forall (fun b => String.length (field b) < 4) (b :: bs)) ->
    cur_block st = block_lines b ->
    (st' ← for_each (scan_line factor) (lines_of bs) st;
     st'' ← emit factor st';
     Ok (res st''))
    = Ok (res st ++ renumber_from (Z.to_nat factor) (cnt st) (b :: bs)).
Proof.
  induction bs as [|b1 bs IH]; intros b st Hok Hw Hcur.
  - apply Forall_cons_1 in Hok as [Hb _].
    destruct (emit_block factor st b [] Hb Hw Hcur) as [h' Hh'].
    cbn [lines_of map concat for_each renumber_from].
    rewrite bind_Ok, Hh', bind_Ok. cbn [res]. now rewrite app_nil_r.
  - apply Forall_cons_1 in Hok as [Hb Hok].
    destruct (emit_block factor st b (b1 :: bs) Hb Hw Hcur) as [h' Hh'].
    pose proof Hok as Hok1. apply Forall_cons_1 in Hok1 as [Hb1 _].
    apply block_ok_inv in Hb1 as (Hm1 & _ & Hbody1).
    rewrite lines_of_cons, for_each_cons.
    rewrite (scan_line_marker _ _ _ _ _ Hm1 Hcur), Hh', !bind_Ok.
    rewrite for_each_app, scan_body, bind_Ok by assumption.
    cbn [res cur_block cnt].
    rewrite (IH b1); [| assumption | | reflexivity].
    + cbn [res cnt renumber_from]. now rewrite <- !app_assoc.
    + destruct Hw as [-> | Hw]; [now left | right].
      now apply Forall_cons_1 in Hw as [_ ?].
Qed.

Lemma copies_imap (n idx : nat) (b : block) :
  copies n idx (field b) (body b) =
  concat (imap (fun k => emitted (idx + k)) (replicate n b)).
Proof.
  revert idx. induction n as [|n IH]; intros idx; [reflexivity |].
  cbn [copies replicate]. rewrite imap_cons. cbn [concat].
  rewrite IH, Nat.add_0_r. unfold emitted at 1. do 2 f_equal.
  apply imap_ext. intros k x _. simpl. now rewrite Nat.add_succ_r.
Qed.

(** The running count numbers the output blocks 1, 2, 3, ... *)
Lemma renumber_from_imap (factor idx : nat) (bs : list block) :
  renumber_from factor idx bs =
  concat (imap (fun k => emitted (idx + k)) (concat (map (replicate factor) bs))).
Proof.
  revert idx. induction bs as [|b bs IH]; intros idx; [reflexivity |].
  cbn [renumber_from map concat]. rewrite imap_app, concat_app.
  rewrite copies_imap, IH, length_replicate. do 2 f_equal.
  apply imap_ext. intros k x _. simpl. now rewrite Nat.add_assoc.
Qed.

Lemma renumber_from_0 (factor : nat) (bs : list block) :
  renumber_from factor 0 bs = renumber factor bs.
Proof. apply renumber_from_imap. Qed.

Lemma scan_line_first (factor : Z) (st : aug_state) (ll : string) :
  Str.contains marker ll = true ->
  cur_block st = [] ->
  scan_line factor st ll =
  Ok {| res := res st; cur_block := [ll]; cnt := cnt st |}.
Proof. unfold scan_line, marker. now intros -> ->. Qed.

Lemma multiply_aug_blocks (b : block) (bs : list block) (factor : Z) :
  Forall (fun b => block_ok b = true) (b :: bs) ->
  (factor = 1%Z \/ Forall (fun b => String.length (field b) < 4) (b :: bs)) ->
  multiply_aug (lines_of (b :: bs)) factor =
  Ok (renumber (Z.to_nat factor) (b :: bs)).
Proof.
  intros Hok Hw. pose proof Hok as Hok1.
  apply Forall_cons_1 in Hok1 as [Hb _].
  apply block_ok_inv in Hb as (Hm & _ & Hbody).
  unfold multiply_aug. rewrite lines_of_cons, for_each_cons.
  rewrite scan_line_first, bind_Ok by (assumption || reflexivity).
  rewrite for_each_app, scan_body, bind_Ok by assumption.
  cbn [res cur_block cnt app].
  rewrite <- renumber_from_0.
  now rewrite (scan_blocks factor bs b _ Hok Hw).
Qed.

(** C7, amended.  For every input made of one or more blocks, each
    introduced by a marker line, and every [factor], [multiply_aug] emits
    the blocks in input order, each [factor] times in a row; the [k]-th
    emitted header carries the index [k] (counted from 1 across the whole
    output) and the trailing field of its source block, which can be read
    back from it, and the other lines are copied verbatim -- provided every
    trailing field is shorter than four characters. *)
Theorem multiply_aug_renumber (bs : list block) (factor : Z) :
  bs <> [] ->
  Forall (fun b => block_ok b = true) bs ->
  Forall (fun b => String.length (field b) < 4) bs ->
  multiply_aug (lines_of bs) factor = Ok (renumber (Z.to_nat factor) bs)
  /\ Forall (fun b => forall k, trailing (aug_header k (field b)) = Some (field b))
       bs.
Proof.
  intros Hne Hok Hw. split.
  - destruct bs as [|b bs]; [congruence |].
    apply multiply_aug_blocks; [exact Hok | right; exact Hw].
  - apply Forall_forall. intros b Hb k.
    rewrite Forall_forall in Hok, Hw.
    apply aug_header_last; [|now apply Hw].
    destruct (block_ok_inv b (Hok b Hb)) as (_ & Ht & _).
    now apply (last_split_token (hdr b)).
Qed.

Lemma multiply_aug_renumber_witness :
  spec_blocks <> []
  /\ Forall (fun b => block_ok b = true) spec_blocks
  /\ Forall (fun b => String.length (field b) < 4) spec_blocks
  /\ lines_of spec_blocks = spec_example
  /\ multiply_aug spec_example 2 = Ok (renumber 2 spec_blocks).
Proof.
  assert (spec_blocks <> []) as H1 by discriminate.
  assert (Forall (fun b => block_ok b = true) spec_blocks) as H2
    by (repeat constructor).
  assert (Forall (fun b => String.length (field b) < 4) spec_blocks) as H3
    by (repeat constructor; simpl; lia).
  split; [exact H1 |]. split; [exact H2 |]. split; [exact H3 |].
  split; [reflexivity |].
  exact (proj1 (multiply_aug_renumber spec_blocks 2 H1 H2 H3)).
Defined.

(** C7 as stated fails: a trailing field of four characters runs into the
    index column, and the second copy re-reads the merged field. *)
Lemma multiply_aug_wide_field :
  [wide_block] <> []
  /\ (1 <= 2)%Z
  /\ Forall (fun b => block_ok b = true) [wide_block]
  /\ multiply_aug (lines_of [wide_block]) 2 =
     Ok [aug_header 1 "1234"; "0.5"; aug_header 2 "11234"; "0.5"]
  /\ multiply_aug (lines_of [wide_block]) 2 <> Ok (renumber 2 [wide_block]).
Proof.
  split; [discriminate |]. split; [lia |].
  split; [repeat constructor |].
  split; [vm_compute; reflexivity |].
  vm_compute. discriminate.
Qed.

(** C10.  On the empty input the final loop reads [cur_block[0]] of an
    empty list: [IndexError] for every [factor >= 1], and the empty output
    only when [factor <= 0]. *)
Theorem multiply_aug_empty (factor : Z) :
  multiply_aug [] factor =
  if bool_decide (1 <= factor)%Z then Raise IndexError else Ok [].
Proof.
  unfold multiply_aug, emit. cbn [for_each]. rewrite bind_Ok.
  case_bool_decide as Hf.
  - destruct (Z.to_nat factor) as [|n] eqn:Hn; [lia |]. reflexivity.
  - replace (Z.to_nat factor) with 0%nat by lia. reflexivity.
Qed.

(** ** Normalization schemes *)

Lemma lower_is_n (c : ascii) :
  Ascii.eqb (Str.lower c) "n" = Ascii.eqb c "n" || Ascii.eqb c "N".
Proof. destruct c as [[] [] [] [] [] [] [] []]; reflexivity. Qed.

Lemma lower_is_v (c : ascii) :
  Ascii.eqb (Str.lower c) "v" = Ascii.eqb c "v" || Ascii.eqb c "V".
Proof. destruct c as [[] [] [] [] [] [] [] []]; reflexivity. Qed.

Section Normalization.

Context {ext : External}.

Lemma normalize_data_dispatch (self : ChargeDensity) (grid_data : ndarray) :
  _normalize_data self grid_data =
  (sc ← scheme_of (normalization self);
   Ok (scaled np.div (volume (structure self)) sc grid_data)).
Proof.
  unfold _normalize_data, scheme_of.
  destruct (normalization self) as [[|c s]|]; try reflexivity.
  cbn [first_char]. rewrite bind_Ok, lower_is_n, lower_is_v.
  destruct (Ascii.eqb c "n" || Ascii.eqb c "N"); [reflexivity |].
  destruct (Ascii.eqb c "v" || Ascii.eqb c "V"); reflexivity.
Qed.

(** C1.  The forward normalization is the identity when the scheme is absent
    or its name starts with n or N, the division of every grid value by the
    volume of the structure when the name starts with v or V, and fails with
    [NotImplementedError] (the specification's UnsupportedSchemeError) for
    any other first character. *)
Theorem normalize_data_scheme (self : ChargeDensity) (grid_data : ndarray) :
  _normalize_data self grid_data =
  (sc ← scheme_of (normalization self);
   Ok (scaled np.div (volume (structure self)) sc grid_data)).
Proof.
  unfold _normalize_data, scheme_of.
  destruct (normalization self) as [[|c s]|]; try reflexivity.
  cbn [first_char]. rewrite bind_Ok, lower_is_n, lower_is_v.
  destruct (Ascii.eqb c "n" || Ascii.eqb c "N"); [reflexivity |].
  destruct (Ascii.eqb c "v" || Ascii.eqb c "V"); reflexivity.
Qed.

Lemma scale_data_scheme (self : ChargeDensity) (data : ndarray)
    (normalization : option string) :
  _scale_data self data normalization =
  (sc ← scheme_of normalization;
   Ok (scaled np.mul (volume (structure self)) sc data)).
Proof.
  unfold _scale_data, scheme_of.
  destruct normalization as [[|c s]|]; try reflexivity.
  cbn [first_char]. rewrite bind_Ok, lower_is_n, lower_is_v.
  destruct (Ascii.eqb c "n" || Ascii.eqb c "N"); [reflexivity |].
  destruct (Ascii.eqb c "v" || Ascii.eqb c "V"); reflexivity.
Qed.

End Normalization.

(** ** The object store *)

Lemma store_same (l : loc) (d : gmap string value) (w : world) :
  heap w !! l = Some d -> store l d w = w.
Proof.
  intros Hl. unfold store. rewrite insert_id by exact Hl. now destruct w.
Qed.

Lemma deref_store (l : loc) (d : gmap string value) (w : world) :
  deref (store l d w) l = d.
Proof. unfold deref, store. simpl. apply lookup_total_insert_eq. Qed.

Lemma deref_store_ne (l l' : loc) (d : gmap string value) (w : world) :
  l <> l' -> deref (store l d w) l' = deref w l'.
Proof. intros Hne. unfold deref, store. simpl. now apply lookup_total_insert_ne. Qed.

Lemma store_store (l : loc) (d d' : gmap string value) (w : world) :
  store l d' (store l d w) = store l d' w.
Proof. unfold store. simpl. now rewrite insert_insert_eq. Qed.

Lemma deref_Some (l : loc) (d : gmap string value) (w : world) :
  heap w !! l = Some d -> deref w l = d.
Proof. intros Hl. unfold deref. now rewrite lookup_total_alt, Hl. Qed.

Lemma setitem_store (l : loc) (k : string) (v : value)
    (d : gmap string value) (w : world) :
  setitem l k v (store l d w) = store l (<[k := v]> d) w.
Proof. unfold setitem. now rewrite deref_store, store_store. Qed.

(** Overwriting every entry of a dict leaves only the new entries. *)
Lemma fmap_union_same {A C} (f g : A -> C) (m : gmap string A) :
  (f <$> m) ∪ (g <$> m) = f <$> m.
Proof.
  apply map_eq. intros i. rewrite lookup_union, !lookup_fmap.
  now destruct (m !! i).
Qed.

(** ** Construction *)

Section Construction.

Context {ext : External}.

(** The lattices of a dict of [PGrid]s: one per entry. *)
Lemma pgrids_lattices_ok (m : gmap string PGrid.t) :
  exists ls,
    pgrids_lattices (VPGrid <$> m) = Ok ls
    /\ forall P : mat3 R -> bool,
         forallb P ls = true
         <-> map_Forall (fun _ g => P (PGrid.lattice g) = true) m.
Proof.
  unfold pgrids_lattices. rewrite map_fold_fmap.
  apply (map_fold_weak_ind (fun r m => exists ls, r = Ok ls /\
    forall P : mat3 R -> bool, forallb P ls = true
      <-> map_Forall (fun _ g => P (PGrid.lattice g) = true) m)).
  - exists []. split; [reflexivity |]. intros P. split; [|reflexivity].
    intros _. apply map_Forall_empty.
  - intros i g m' r Hi (ls & -> & Hls).
    exists (PGrid.lattice g :: ls). split; [reflexivity |].
    intros P. cbn [forallb]. rewrite andb_true_iff, Hls.
    now rewrite map_Forall_insert.
Qed.

(** An array in the dict stops the construction at [.lattice]. *)
Lemma pgrids_lattices_array (k : string) (a : ndarray) :
  pgrids_lattices {[ k := VArray a ]} = Raise AttributeError.
Proof. unfold pgrids_lattices. now rewrite map_fold_singleton. Qed.

Lemma normalize_item_ok (self : ChargeDensity) (sc : scheme) (k : string)
    (g : PGrid.t) (d : gmap string value) (w : world) :
  scheme_of (normalization self) = Ok sc ->
  normalize_item self k (VPGrid g) (store (pgrids self) d w, Ok tt) =
  (store (pgrids self) (<[k := stored self sc g]> d) w, Ok tt).
Proof.
  intros Hsc. unfold normalize_item. cbn [get_grid_data].
  rewrite bind_Ok, normalize_data_dispatch, Hsc, bind_Ok.
  now rewrite setitem_store.
Qed.

Lemma normalize_item_raise (self : ChargeDensity) (e : exn) (k : string)
    (g : PGrid.t) (w : world) :
  scheme_of (normalization self) = Raise e ->
  normalize_item self k (VPGrid g) (w, Ok tt) = (w, Raise e).
Proof.
  intros Hsc. unfold normalize_item. cbn [get_grid_data].
  now rewrite bind_Ok, normalize_data_dispatch, Hsc.
Qed.

Lemma normalize_loop_from (self : ChargeDensity) (sc : scheme)
    (m : gmap string PGrid.t) (d0 : gmap string value) (w : world) :
  scheme_of (normalization self) = Ok sc ->
  heap w !! pgrids self = Some d0 ->
  map_fold (normalize_item self) (w, Ok tt) (VPGrid <$> m) =
  (store (pgrids self) ((stored self sc <$> m) ∪ d0) w, Ok tt).
Proof.
  intros Hsc Hd0. rewrite map_fold_fmap.
  apply (map_fold_weak_ind (fun r m' =>
    r = (store (pgrids self) ((stored self sc <$> m') ∪ d0) w, Ok tt))).
  - rewrite fmap_empty, (left_id_L ∅ (∪)). now rewrite store_same.
  - intros i g m' r Hi ->. cbn [compose].
    rewrite (normalize_item_ok self sc) by exact Hsc.
    now rewrite fmap_insert, insert_union_l.
Qed.

(** The normalization loop under a supported scheme: every entry is
    rebound, in the dict the caller passed, to the scaled array. *)
Lemma normalize_loop_ok (self : ChargeDensity) (sc : scheme)
    (m : gmap string PGrid.t) (w : world) :
  scheme_of (normalization self) = Ok sc ->
  heap w !! pgrids self = Some (VPGrid <$> m) ->
  map_fold (normalize_item self) (w, Ok tt) (VPGrid <$> m) =
  (store (pgrids self) (stored self sc <$> m) w, Ok tt).
Proof.
  intros Hsc Hd.
  rewrite (normalize_loop_from self sc m _ w Hsc Hd).
  now rewrite fmap_union_same.
Qed.

(** Under an unsupported scheme the loop raises at the first entry and has
    changed nothing. *)
Lemma normalize_loop_raise (self : ChargeDensity) (e : exn)
    (m : gmap string PGrid.t) (w : world) :
  scheme_of (normalization self) = Raise e ->
  map_fold (normalize_item self) (w, Ok tt) (VPGrid <$> m) =
  if bool_decide (m = ∅) then (w, Ok tt) else (w, Raise e).
Proof.
  intros Hsc. rewrite map_fold_fmap.
  enough ((m = ∅ -> map_fold (fun i => normalize_item self i ∘ VPGrid)
                      (w, Ok tt) m = (w, Ok tt))
          /\ (m <> ∅ -> map_fold (fun i => normalize_item self i ∘ VPGrid)
                         (w, Ok tt) m = (w, Raise e))) as [H0 H1].
  { case_bool_decide; auto. }
  apply (map_fold_weak_ind (fun r m' =>
    (m' = ∅ -> r = (w, Ok tt)) /\ (m' <> ∅ -> r = (w, Raise e)))).
  - split; [reflexivity | congruence].
  - intros i g m' r Hi [H0 H1]. split.
    + intros Hemp. now apply insert_non_empty in Hemp.
    + intros _. cbn [compose]. destruct (decide (m' = ∅)) as [Hm|Hm].
      * rewrite (H0 Hm). now apply normalize_item_raise.
      * now rewrite (H1 Hm).
Qed.

(** [__post_init__] on a dict of [PGrid]s, in closed form. *)
Lemma post_init_spec (self : ChargeDensity) (m : gmap string PGrid.t)
    (w : world) :
  heap w !! pgrids self = Some (VPGrid <$> m) ->
  __post_init__ self w =
  if bool_decide (lattices_agree (structure self) m) then
    match scheme_of (normalization self) with
    | Ok sc => (store (pgrids self) (stored self sc <$> m) w, Ok tt)
    | Raise e => if bool_decide (m = ∅) then (w, Ok tt) else (w, Raise e)
    end
  else (w, Raise ValueError).
Proof.
  intros Hd. unfold __post_init__. rewrite (deref_Some _ _ _ Hd).
  destruct (pgrids_lattices_ok m) as (ls & -> & Hls).
  specialize (Hls (np.allclose (lattice (structure self)))).
  case_bool_decide as Hall.
  - apply Hls in Hall. rewrite Hall.
    destruct (scheme_of (normalization self)) as [sc|e] eqn:Hsc.
    + now apply normalize_loop_ok.
    + now apply normalize_loop_raise.
  - assert (forallb (np.allclose (lattice (structure self))) ls = false)
      as ->; [|reflexivity].
    apply not_true_is_false. intros Hf. now apply Hls in Hf.
Qed.

End Construction.

(** ** numpy comparisons *)

Lemma isclose_refl (x : R) : np.isclose x x = true.
Proof.
  unfold np.isclose, np.atol, np.rtol. apply bool_decide_eq_true.
  replace (x - x)%R with 0%R by ring. rewrite Rabs_R0.
  pose proof (Rabs_pos x). nra.
Qed.

Lemma allclose_refl (m : mat3 R) : np.allclose m m = true.
Proof.
  destruct m as [[[[a b] c] [[d e] f]] [[g h] i]].
  unfold np.allclose. simpl. now rewrite !isclose_refl.
Qed.

Lemma scheme_of_raise (n : option string) (e : exn) :
  scheme_of n = Raise e -> e = IndexError \/ e = NotImplementedError.
Proof.
  unfold scheme_of. destruct n as [[|c s]|]; try discriminate.
  - intros [= <-]. now left.
  - destruct (Ascii.eqb c "n" || Ascii.eqb c "N"); [discriminate |].
    destruct (Ascii.eqb c "v" || Ascii.eqb c "V"); [discriminate |].
    intros [= <-]. now right.
Qed.

Section ConstructionClaims.

Context {ext : External}.

(** The constructor on a dict of [PGrid]s, in closed form. *)
Lemma new_spec (l : loc) (s : Structure) (n : option string)
    (m : gmap string PGrid.t) (w : world) :
  heap w !! l = Some (VPGrid <$> m) ->
  let self := {| pgrids := l; structure := s; normalization := n |} in
  new l s n w =
  if bool_decide (lattices_agree s m) then
    match scheme_of n with
    | Ok sc => (store l (stored self sc <$> m) w, Ok self)
    | Raise e => if bool_decide (m = ∅) then (w, Ok self) else (w, Raise e)
    end
  else (w, Raise ValueError).
Proof.
  intros Hd self. unfold new. fold self.
  rewrite (post_init_spec self m w Hd). cbn [structure normalization pgrids self].
  case_bool_decide; [|reflexivity].
  destruct (scheme_of n); [reflexivity |].
  case_bool_decide; reflexivity.
Qed.

(** C2, amended.  Construction fails with [ValueError] (the specification's
    InvariantError) exactly when some grid's lattice is not close to the
    structure's; when all lattices agree it succeeds exactly when the scheme
    is supported or there is no grid to normalize. *)
Theorem new_lattice_invariant (l : loc) (s : Structure) (n : option string)
    (m : gmap string PGrid.t) (w : world) :
  heap w !! l = Some (VPGrid <$> m) ->
  (snd (new l s n w) = Raise ValueError
   <-> exists k g, m !! k = Some g
         /\ np.allclose (lattice s) (PGrid.lattice g) = false)
  /\ (lattices_agree s m ->
      (exists self, snd (new l s n w) = Ok self)
      <-> (m = ∅ \/ exists sc, scheme_of n = Ok sc)).
Proof.
  intros Hd. rewrite (new_spec l s n m w Hd). split.
  - case_bool_decide as Hall.
    + split.
      * destruct (scheme_of n) as [sc|e] eqn:Hsc; [discriminate |].
        case_bool_decide; [discriminate |]. cbn [snd]. intros [= ->].
        apply scheme_of_raise in Hsc as [|]; discriminate.
      * intros (k & g & Hk & Hg). apply Hall in Hk. cbn beta in Hk. congruence.
    + split; [|reflexivity]. intros _.
      apply map_not_Forall in Hall; [|apply _].
      destruct Hall as (k & g & Hk & Hg).
      exists k, g. split; [exact Hk |]. now apply not_true_is_false.
  - intros Hall. rewrite bool_decide_eq_true_2 by exact Hall.
    destruct (scheme_of n) as [sc|e] eqn:Hsc.
    + split; [| intros _; eexists; reflexivity].
      intros _. right. now exists sc.
    + case_bool_decide as Hm.
      * split; [now left | intros _; eexists; reflexivity].
      * split; [intros [self Hself]; discriminate |].
        intros [Hemp | [sc Hsc']]; [contradiction | discriminate].
Qed.

End ConstructionClaims.

(** ** Construction on concrete inputs *)

Lemma caller_world_dict (g : PGrid.t) :
  heap (caller_world g) !! caller_loc = Some (VPGrid <$> {[ "total" := g ]}).
Proof. unfold caller_world. cbn [heap]. now rewrite lookup_singleton_eq, map_fmap_singleton. Qed.

Lemma volume_diag3 (a b c : R) :
  (0 <= a * b * c)%R -> volume (External := cell_only) (diag3 a b c) = (a * b * c)%R.
Proof.
  intros Hpos. cbn. rewrite Rabs_right; [ring | nra].
Qed.

Lemma lattices_agree_same (s : mat3 R) (x : R) :
  lattices_agree (ext := cell_only) s {[ "total" := one_point s x ]}.
Proof.
  unfold lattices_agree. apply map_Forall_singleton. apply allclose_refl.
Qed.

Lemma new_lattice_invariant_witness :
  let s := diag3 2 2 2 in
  let g := one_point s 1 in
  heap (caller_world g) !! caller_loc = Some (VPGrid <$> {[ "total" := g ]})
  /\ lattices_agree (ext := cell_only) s {[ "total" := g ]}
  /\ exists self,
       snd (new (ext := cell_only) caller_loc s (Some "vasp") (caller_world g)) = Ok self.
Proof.
  intros s g.
  pose proof (caller_world_dict g) as Hd.
  pose proof (lattices_agree_same s 1) as Hall.
  split; [exact Hd |]. split; [exact Hall |].
  apply (proj2 (new_lattice_invariant (ext := cell_only) caller_loc s (Some "vasp")
                  {[ "total" := g ]} (caller_world g) Hd) Hall).
  right. exists SchemeVolume. reflexivity.
Defined.

(** C2 as stated fails: all lattices agree, and the construction still
    fails, on the scheme name. *)
Lemma new_unsupported_scheme_raises :
  let s := diag3 2 2 2 in
  let g := one_point s 1 in
  lattices_agree (ext := cell_only) s {[ "total" := g ]}
  /\ snd (new (ext := cell_only) caller_loc s (Some "x") (caller_world g))
     = Raise NotImplementedError.
Proof.
  intros s g. split; [apply lattices_agree_same |].
  rewrite (new_spec (ext := cell_only) caller_loc s (Some "x") {[ "total" := g ]})
    by apply caller_world_dict.
  rewrite bool_decide_eq_true_2 by apply lattices_agree_same.
  cbn [scheme_of Ascii.eqb]. cbn.
  rewrite bool_decide_eq_false_2; [reflexivity |].
  apply (insert_non_empty (M := gmap string) ∅ "total" g).
Qed.

(** C8.  After a successful construction the caller's dict -- the object
    [pgrids] refers to -- no longer maps the name to a [PGrid] but to the
    normalized array, so that a second construction from the same dict
    fails at [.lattice]. *)
Theorem construction_rebinds_pgrids :
  let s := diag3 2 1 1 in
  let g := one_point s 1 in
  exists w' self,
    new (ext := cell_only) caller_loc s (Some "vasp") (caller_world g) = (w', Ok self)
    /\ pgrids self = caller_loc
    /\ deref (caller_world g) caller_loc = {[ "total" := VPGrid g ]}
    /\ deref w' caller_loc =
       {[ "total" := VArray {| shape := [1; 1; 1]%nat; flat := [1 / 2]%R |} ]}
    /\ snd (new (ext := cell_only) caller_loc s (Some "vasp") w') = Raise AttributeError.
Proof.
  intros s g. eexists _, _.
  rewrite (new_spec (ext := cell_only) caller_loc s (Some "vasp") {[ "total" := g ]})
    by apply caller_world_dict.
  rewrite bool_decide_eq_true_2 by apply lattices_agree_same.
  cbn [scheme_of Ascii.eqb]. cbn [orb].
  split; [reflexivity |]. split; [reflexivity |].
  split; [reflexivity |].
  assert (stored (ext := cell_only)
            (@Build_ChargeDensity cell_only caller_loc s (Some "vasp"))
            SchemeVolume
          <$> ({[ "total" := g ]} : gmap string PGrid.t)
          = {[ "total" := VArray {| shape := [1; 1; 1]%nat;
                                    flat := [1 / 2]%R |} ]}) as Hst.
  { rewrite map_fmap_singleton. unfold stored, scaled, np.div. cbn [structure].
    unfold s. rewrite volume_diag3 by lra. cbn.
    do 4 f_equal. lra. }
  rewrite Hst, deref_store. split; [reflexivity |].
  unfold new, __post_init__. cbn [pgrids]. rewrite deref_store.
  now rewrite pgrids_lattices_array.
Qed.

(** ** Export *)

Lemma mul_div_cancel (a : ndarray) (v : R) :
  v <> 0%R -> np.mul (np.div a v) v = a.
Proof.
  intros Hv. destruct a as [sh fl]. unfold np.mul, np.div. cbn [shape flat].
  f_equal. rewrite map_map. rewrite <- (map_id fl) at 2.
  apply map_ext. intros x. now field.
Qed.

Section ExportClaims.

Context {ext : External}.

Lemma scale_data_vasp (self : ChargeDensity) (a : ndarray) :
  _scale_data self a (Some "vasp") = Ok (np.mul a (volume (structure self))).
Proof. reflexivity. Qed.

(** [to_Chgcar] on a dict of arrays: every array times the volume, whatever
    [self.normalization] is. *)
Lemma to_Chgcar_arrays (self : ChargeDensity) (am : gmap string ndarray)
    (w : world) :
  deref w (pgrids self) = VArray <$> am ->
  to_Chgcar self w =
  Ok {| chg_structure := structure self;
        chg_data := (fun a => np.mul a (volume (structure self))) <$> am |}.
Proof.
  intros Hd. unfold to_Chgcar. rewrite Hd, map_fold_fmap.
  assert (map_fold (fun i => scale_item self i ∘ VArray) (Ok ∅) am
          = Ok ((fun a => np.mul a (volume (structure self))) <$> am)) as ->;
    [|reflexivity].
  apply (map_fold_weak_ind (fun r m' =>
    r = Ok ((fun a => np.mul a (volume (structure self))) <$> m'))).
  - now rewrite fmap_empty.
  - intros i a m' r Hi ->. cbn [compose]. unfold scale_item.
    rewrite bind_Ok, scale_data_vasp, bind_Ok. now rewrite fmap_insert.
Qed.

(** What the export hands over for a grid that was stored under scheme
    [sc]. *)
Lemma stored_arrays (self : ChargeDensity) (sc : scheme)
    (m : gmap string PGrid.t) :
  stored self sc <$> m =
  VArray <$> ((fun g => scaled np.div (volume (structure self)) sc
                          (PGrid.grid_data g)) <$> m).
Proof. now rewrite <- map_fmap_compose. Qed.

Lemma export_after_new (l : loc) (s : Structure)
    (n : option string) (sc : scheme) (m : gmap string PGrid.t) (w : world) :
  heap w !! l = Some (VPGrid <$> m) ->
  lattices_agree s m ->
  scheme_of n = Ok sc ->
  exists w' self,
    new l s n w = (w', Ok self)
    /\ to_Chgcar self w' =
       Ok {| chg_structure := s;
             chg_data :=
               (fun g => np.mul (scaled np.div (volume s) sc
                                   (PGrid.grid_data g)) (volume s)) <$> m |}.
Proof.
  intros Hd Hall Hsc. rewrite (new_spec l s n m w Hd).
  rewrite bool_decide_eq_true_2, Hsc by exact Hall.
  eexists _, _. split; [reflexivity |].
  set (self := {| pgrids := l; structure := s; normalization := n |}).
  rewrite (to_Chgcar_arrays self
             ((fun g => scaled np.div (volume s) sc (PGrid.grid_data g))
              <$> m)).
  - rewrite <- map_fmap_compose. reflexivity.
  - cbn [pgrids self]. rewrite deref_store. apply stored_arrays.
Qed.

(** C3, amended.  The export multiplies every array by the volume whatever
    scheme the aggregate was built with.  For an aggregate built with the
    volume-scaled scheme the exported arrays are the stored arrays the
    caller passed (exactly, in real arithmetic, when the volume is not
    zero); for an aggregate built with scheme none they are the grid data
    times the volume. *)
Theorem export_after_construction (l : loc) (s : Structure)
    (n : option string) (sc : scheme) (m : gmap string PGrid.t) (w : world) :
  heap w !! l = Some (VPGrid <$> m) ->
  lattices_agree s m ->
  scheme_of n = Ok sc ->
  exists w' self data,
    new l s n w = (w', Ok self)
    /\ to_Chgcar self w' = Ok {| chg_structure := s; chg_data := data |}
    /\ (sc = SchemeVolume -> volume s <> 0%R ->
        data = PGrid.grid_data <$> m)
    /\ (sc = SchemeNone ->
        data = (fun g => np.mul (PGrid.grid_data g) (volume s)) <$> m).
Proof.
  intros Hd Hall Hsc. rewrite (new_spec l s n m w Hd).
  rewrite bool_decide_eq_true_2, Hsc by exact Hall.
  eexists _, _, _. split; [reflexivity |]. split.
  - set (self := {| pgrids := l; structure := s; normalization := n |}).
    rewrite (to_Chgcar_arrays self
               ((fun g => scaled np.div (volume s) sc (PGrid.grid_data g))
                <$> m)).
    + rewrite <- map_fmap_compose. reflexivity.
    + cbn [pgrids self]. rewrite deref_store. apply stored_arrays.
  - split.
    + intros -> Hv. apply map_fmap_ext. intros k g _. cbn.
      now apply mul_div_cancel.
    + intros ->. reflexivity.
Qed.

End ExportClaims.

Lemma export_after_construction_witness :
  let s := diag3 2 1 1 in
  let g := one_point s 1 in
  exists w' self,
    new (ext := cell_only) caller_loc s (Some "vasp") (caller_world g)
    = (w', Ok self)
    /\ to_Chgcar self w' =
       Ok (@Build_Chgcar cell_only s {[ "total" := PGrid.grid_data g ]}).
Proof.
  intros s g.
  destruct (export_after_construction (ext := cell_only) caller_loc s
              (Some "vasp") SchemeVolume {[ "total" := g ]} (caller_world g)
              (caller_world_dict g) (lattices_agree_same s 1) eq_refl)
    as (w' & self & data & Hnew & Hexp & Hvol & _).
  exists w', self. split; [exact Hnew |].
  rewrite Hexp, Hvol, map_fmap_singleton; [reflexivity.. |].
  unfold s. rewrite volume_diag3; lra.
Defined.

(** C3 as stated fails: an aggregate built with scheme none holds the
    value 1 on a cell of volume 2, and the export hands over 2. *)
Lemma export_scheme_none_scales :
  let s := diag3 2 1 1 in
  let g := one_point s 1 in
  exists w' self c,
    new (ext := cell_only) caller_loc s None (caller_world g) = (w', Ok self)
    /\ deref w' caller_loc = {[ "total" := VArray (PGrid.grid_data g) ]}
    /\ to_Chgcar self w' = Ok c
    /\ chg_data c !! "total"
       = Some {| shape := [1; 1; 1]%nat; flat := [2]%R |}
    /\ chg_data c !! "total" <> Some (PGrid.grid_data g).
Proof.
  intros s g.
  destruct (export_after_new (ext := cell_only) caller_loc s
              None SchemeNone {[ "total" := g ]} (caller_world g)
              (caller_world_dict g) (lattices_agree_same s 1) eq_refl)
    as (w' & self & Hnew & Hexp).
  rewrite map_fmap_singleton in Hexp. cbn [scaled] in Hexp.
  assert (np.mul (PGrid.grid_data g) (volume (External := cell_only) s)
          = {| shape := [1; 1; 1]%nat; flat := [2]%R |}) as Hmul.
  { unfold s. rewrite volume_diag3 by lra. unfold np.mul. cbn.
    do 3 f_equal. lra. }
  rewrite Hmul in Hexp.
  eexists w', self, _. split; [exact Hnew |]. split.
  - rewrite (new_spec (ext := cell_only) caller_loc s None {[ "total" := g ]})
      in Hnew by apply caller_world_dict.
    rewrite bool_decide_eq_true_2 in Hnew by apply lattices_agree_same.
    cbn [scheme_of] in Hnew. injection Hnew as <- _.
    now rewrite deref_store, map_fmap_singleton.
  - split; [exact Hexp |]. cbn [chg_data]. rewrite lookup_singleton_eq.
    split; [reflexivity |]. intros [= Hflat]. lra.
Qed.

(** ** Rounding and the derived grid *)

Lemma rint_IZR (z : Z) : np.rint (IZR z) = z.
Proof.
  unfold np.rint. rewrite ZfloorZ.
  rewrite bool_decide_eq_true_2; [reflexivity | lra].
Qed.

Lemma astype_int_IZR (z : Z) : np.astype_int (IZR z) = z.
Proof.
  unfold np.astype_int. case_bool_decide.
  - apply ZfloorZ.
  - unfold Zceil. replace (- IZR z)%R with (IZR (- z)) by now rewrite opp_IZR.
    rewrite ZfloorZ. lia.
Qed.



Lemma round_sc_mat_rint (m : mat3 R) :
  round_sc_mat m = mat3_map np.rint m.
Proof.
  destruct m as [[[[a b] c] [[d e] f]] [[g h] i]].
  unfold round_sc_mat, np.round. cbn. now rewrite !astype_int_IZR.
Qed.



(** The cube of the cube root. *)
Lemma Rpower_third_cube (x : R) :
  (0 < x)%R -> (Rpower x (1 / 3) ^ 3 = x)%R.
Proof.
  intros Hx. rewrite <- (Rpower_pow 3) by apply exp_pos.
  rewrite Rpower_mult. replace (1 / 3 * INR 3)%R with 1%R by (simpl; lra).
  now apply Rpower_1.
Qed.

(** [floor(max(y, 1))] and [max(floor(y), 1)] are the same integer. *)
Lemma floor_py_max (y : R) : Zfloor (py_max y 1) = Z.max (Zfloor y) 1.
Proof.
  unfold py_max. pose proof (Zfloor_bound y) as [Hlo Hhi]. case_bool_decide.
  - rewrite (ZfloorZ 1). assert (Zfloor y < 1)%Z; [|lia].
    apply lt_IZR. lra.
  - assert (1 <= Zfloor y)%Z; [|lia]. apply Zfloor_lub. lra.
Qed.

(** Every derived dimension is at least 1. *)
Lemma derive_grid_positive (lengths : vec3 R) (vol : R) (n : Z) :
  Forall (fun d => (1 <= d)%Z) (derive_grid lengths vol n).
Proof.
  unfold derive_grid. apply Forall_map, Forall_forall. intros l _.
  cbn beta. rewrite floor_py_max. lia.
Qed.

Lemma derive_grid_spec_aux (a b c vol : R) (n : Z) :
  (0 < a)%R -> (0 < b)%R -> (0 < c)%R -> (0 < vol)%R -> (0 < n)%Z ->
  (0 < grid_mult (a, b, c) vol n)%R
  /\ (np.prod (a, b, c) / grid_mult (a, b, c) vol n ^ 3 = IZR n / vol)%R
  /\ derive_grid (a, b, c) vol n =
     map (fun l => Z.max (Zfloor (l / grid_mult (a, b, c) vol n)) 1) [a; b; c].
Proof.
  intros Ha Hb Hc Hvol Hn.
  assert (0 < IZR n)%R as Hn' by now apply IZR_lt.
  assert (0 < a * b * c)%R as Hp by (repeat apply Rmult_lt_0_compat; assumption).
  assert (0 < IZR n / vol)%R as Hng by now apply Rdiv_lt_0_compat.
  assert (0 < a * b * c / (IZR n / vol))%R as Hx by now apply Rdiv_lt_0_compat.
  split; [apply exp_pos |]. split.
  - unfold grid_mult. cbn [np.prod].
    rewrite Rpower_third_cube by exact Hx. field. lra.
  - unfold derive_grid. cbn [vec3_list map]. now rewrite !floor_py_max.
Qed.

(** What the derivation computes.  For a positive count [grid_out], a
    positive volume and positive cell lengths, the scale factor [mult] is
    positive and satisfies [prod(lengths) / mult^3 = grid_out / volume] --
    the count divided by the volume of the new cell, not the count itself --
    and every axis gets [max(floor(length_i / mult), 1)] points. *)
Theorem derive_grid_spec (a b c vol : R) (n : Z) :
  (0 < a)%R -> (0 < b)%R -> (0 < c)%R -> (0 < vol)%R -> (0 < n)%Z ->
  let mult := grid_mult (a, b, c) vol n in
  (0 < mult)%R
  /\ (np.prod (a, b, c) / mult ^ 3 = IZR n / vol)%R
  /\ derive_grid (a, b, c) vol n =
     map (fun l => Z.max (Zfloor (l / mult)) 1) [a; b; c].
Proof.
  intros Ha Hb Hc Hvol Hn mult.
  assert (0 < IZR n)%R as Hn' by now apply IZR_lt.
  assert (0 < a * b * c)%R as Hp by (repeat apply Rmult_lt_0_compat; assumption).
  assert (0 < IZR n / vol)%R as Hng by now apply Rdiv_lt_0_compat.
  assert (0 < a * b * c / (IZR n / vol))%R as Hx by now apply Rdiv_lt_0_compat.
  split; [apply exp_pos |]. split.
  - unfold mult, grid_mult. cbn [np.prod].
    rewrite Rpower_third_cube by exact Hx. field. lra.
  - unfold derive_grid. fold mult. cbn [vec3_list map].
    now rewrite !floor_py_max.
Qed.

Lemma derive_grid_spec_witness :
  let mult := grid_mult (2, 2, 2)%R 8 2000 in
  (np.prod (2, 2, 2) / mult ^ 3 = 2000 / 8)%R.
Proof.
  apply (derive_grid_spec 2 2 2 8 2000); try lra. lia.
Defined.

(** C5.  The derivation misses the requested resolution: on the cubic cell
    of side 2 (volume 8) and a [grid_out] of 2000, [prod(lengths) / mult^3]
    is 250, an eighth of the count, and the derived grid has
    6 x 6 x 6 = 216 points -- neither 2000 points, nor the 16000 points of a
    density of 2000 per unit volume. *)
Lemma derive_grid_eighth :
  let mult := grid_mult (2, 2, 2)%R 8 2000 in
  (np.prod (2, 2, 2) / mult ^ 3 = 250)%R
  /\ (250 * 8 = IZR 2000)%R
  /\ derive_grid (2, 2, 2)%R 8 2000 = [6; 6; 6]%Z.
Proof.
  intros mult.
  destruct (derive_grid_spec_aux 2 2 2 8 2000) as (Hpos & Hcube & Hgrid);
    try lra; try lia.
  fold mult in Hpos, Hcube, Hgrid.
  split; [rewrite Hcube; lra |]. split; [lra |].
  rewrite Hgrid. cbn [map np.prod] in *.
  assert (mult * mult * mult = 4 / 125)%R as Hm.
  { assert (mult ^ 3 <> 0)%R by (apply pow_nonzero; lra).
    apply (Rmult_eq_compat_r (mult ^ 3)) in Hcube.
    unfold Rdiv in Hcube at 1. rewrite Rmult_assoc, Rinv_l in Hcube by assumption.
    simpl in Hcube. lra. }
  assert (mult <= 1 / 3)%R as Hhi.
  { destruct (Rle_dec mult (1 / 3)) as [|Hn]; [assumption | exfalso].
    assert (1 / 3 < mult)%R by lra.
    assert (1 / 9 < mult * mult)%R by nra.
    assert (1 / 27 < mult * mult * mult)%R by nra. lra. }
  assert (2 / 7 < mult)%R as Hlo.
  { destruct (Rlt_dec (2 / 7) mult) as [|Hn]; [assumption | exfalso].
    assert (mult <= 2 / 7)%R by lra.
    assert (mult * mult <= 4 / 49)%R by nra.
    assert (mult * mult * mult <= 8 / 343)%R by nra. lra. }
  assert (Zfloor (2 / mult) = 6%Z) as ->; [|reflexivity].
  apply Zfloor_eq.
  assert (2 / mult * mult = 2)%R as Hq by (field; lra).
  split; nra.
Qed.

(** ** The supercell transform *)

Section Transform.

Context {ext : External}.

(** [from_rho]: a fresh dict holding the arrays as they are, and the
    declared scheme recorded on the object. *)
Lemma from_rho_spec (rho : gmap string ndarray) (s : Structure)
    (n : option string) (w : world) :
  from_rho rho s n w =
  (snd (alloc (VArray <$> rho) w),
   Ok {| pgrids := next w; structure := s; normalization := n |}).
Proof.
  unfold from_rho. cbn [alloc].
  set (mk := fun a => {| PGrid.grid_data := a; PGrid.lattice := lattice s |}).
  set (w1 := {| heap := <[next w := _]> (heap w); next := Pos.succ (next w);
                warnings := warnings w |}).
  rewrite (new_spec (next w) s None (mk <$> rho) w1).
  - rewrite bool_decide_eq_true_2.
    + cbn [scheme_of pgrids structure normalization fst snd].
      unfold store, w1. cbn [heap next warnings]. rewrite insert_insert_eq.
      do 3 f_equal. rewrite <- map_fmap_compose. reflexivity.
    + unfold lattices_agree. apply map_Forall_fmap, map_Forall_lookup.
      intros k a _. apply allclose_refl.
  - unfold w1. cbn [heap]. rewrite lookup_insert_eq. f_equal.
    now rewrite <- map_fmap_compose.
Qed.

(** [get_transformed], in closed form. *)
Lemma get_transformed_spec (self : ChargeDensity) (sc_mat : mat3 R)
    (origin : vec3 R) (grid_out : grid_spec) (up_sample : Z) (w : world) :
  get_transformed self sc_mat origin grid_out up_sample w =
  let w1 := checked sc_mat w in
  let st := new_structure_of self sc_mat origin in
  match get_transformed_data self (round_sc_mat sc_mat) origin
          (resolve_grid st grid_out) up_sample w1 with
  | Raise e => (w1, Raise e)
  | Ok rho =>
      (snd (alloc (VArray <$> rho) w1),
       Ok {| pgrids := next w1; structure := st;
             normalization := normalization self |})
  end.
Proof.
  unfold get_transformed. cbn zeta.
  fold (round_sc_mat sc_mat). fold (checked sc_mat w).
  fold (new_structure_of self sc_mat origin).
  set (st := new_structure_of self sc_mat origin).
  assert (match grid_out with
          | Count n => derive_grid (abc st) (volume st) n
          | Dims dims => dims
          end = resolve_grid st grid_out) as -> by reflexivity.
  destruct (get_transformed_data _ _ _ _ _ _); [|reflexivity].
  apply from_rho_spec.
Qed.


Lemma checked_warnings (sc_mat : mat3 R) (w : world) :
  warnings (checked sc_mat w) =
  warnings w ++
  (if np.allclose (mat3_map np.round sc_mat) sc_mat then [] else [sc_mat_warning]).
Proof.
  unfold checked. destruct (np.allclose _ _); cbn; [now rewrite app_nil_r | reflexivity].
Qed.


Lemma get_transformed_warnings (self : ChargeDensity) (sc_mat : mat3 R)
    (origin : vec3 R) (grid_out : grid_spec) (up_sample : Z) (w : world) :
  warnings (fst (get_transformed self sc_mat origin grid_out up_sample w)) =
  warnings w ++
  (if np.allclose (mat3_map np.round sc_mat) sc_mat then []
   else [sc_mat_warning]).
Proof.
  rewrite get_transformed_spec. cbn zeta.
  destruct (get_transformed_data _ _ _ _ _ _);
    cbn [fst snd alloc warnings]; apply checked_warnings.
Qed.


(** C9.  When [grid_out] resolves to a dimension that is not positive the
    transform fails with [ShapeError] and returns no aggregate; a count
    never resolves to such a dimension. *)
Theorem get_transformed_shape_error (self : ChargeDensity) (sc_mat : mat3 R)
    (origin : vec3 R) (grid_out : grid_spec) (up_sample : Z) (w : world) :
  (Exists (fun d => (d <= 0)%Z)
     (resolve_grid (new_structure_of self sc_mat origin) grid_out) ->
   snd (get_transformed self sc_mat origin grid_out up_sample w)
   = Raise ShapeError)
  /\ forall st n, Forall (fun d => (1 <= d)%Z) (resolve_grid st (Count n)).
Proof.
  split; [|intros st n; apply derive_grid_positive].
  intros Hex. rewrite get_transformed_spec. cbn zeta.
  unfold get_transformed_data at 1.
  assert (forallb (fun d => bool_decide (0 < d)%Z)
            (resolve_grid (new_structure_of self sc_mat origin) grid_out)
          = false) as ->.
  { apply not_true_is_false. intros Hall.
    apply Exists_exists in Hex as (d & Hin & Hd).
    rewrite forallb_forall in Hall. specialize (Hall d Hin).
    apply bool_decide_eq_true in Hall. lia. }
  now rewrite andb_false_r.
Qed.


End Transform.

(** ** The transform on concrete inputs *)





(** The example of section 8: 3/2 is rounded to 2, with a warning. *)
Lemma rint_three_halves : np.rint (3 / 2) = 2%Z.
Proof.
  unfold np.rint.
  assert (Zfloor (3 / 2) = 1%Z) as -> by (apply Zfloor_eq; lra).
  rewrite bool_decide_eq_false_2 by lra.
  rewrite bool_decide_eq_false_2 by lra. reflexivity.
Qed.

Example get_transformed_three_halves :
  round_sc_mat three_halves = ((2, 0, 0), (0, 1, 0), (0, 0, 1))%Z
  /\ warnings
       (fst (get_transformed built three_halves no_shift
               (Dims [2; 2; 2]%Z) 1 built_world)) = [sc_mat_warning].
Proof.
  split.
  - rewrite round_sc_mat_rint. unfold three_halves, diag3. cbn.
    now rewrite rint_three_halves, (rint_IZR 0), (rint_IZR 1).
  - rewrite (get_transformed_warnings built three_halves no_shift
               (Dims [2; 2; 2]%Z) 1 built_world).
    assert (np.allclose (mat3_map np.round three_halves) three_halves = false)
      as ->; [|reflexivity].
    unfold three_halves, diag3, np.allclose. cbn [mat3_map vec3_map mat3_list vec3_list app zip zip_with forallb].
    unfold np.round. rewrite rint_three_halves.
    assert (np.isclose 2 (3 / 2) = false) as ->; [|reflexivity].
    unfold np.isclose, np.atol, np.rtol. apply bool_decide_eq_false.
    rewrite !Rabs_right; lra.
Qed.


Lemma get_transformed_shape_error_witness :
  Exists (fun d => (d <= 0)%Z) [0; 4; 4]%Z
  /\ snd (get_transformed built cubic no_shift (Dims [0; 4; 4]%Z) 1
            built_world) = Raise ShapeError.
Proof.
  assert (Exists (fun d => (d <= 0)%Z) [0; 4; 4]%Z) as Hex
    by (apply Exists_cons_hd; lia).
  split; [exact Hex |].
  exact (proj1 (get_transformed_shape_error built cubic no_shift
                  (Dims [0; 4; 4]%Z) 1 built_world) Hex).
Defined.

(** ** The scheme names of the source *)

Example scheme_of_vasp : scheme_of (Some "vasp") = Ok SchemeVolume.
Proof. reflexivity. Qed.

Example scheme_of_none : scheme_of (Some "none") = Ok SchemeNone.
Proof. reflexivity. Qed.

Example scheme_of_absent : scheme_of None = Ok SchemeNone.
Proof. reflexivity. Qed.

Example scheme_of_other : scheme_of (Some "x") = Raise NotImplementedError.
Proof. reflexivity. Qed.

Example scheme_of_empty : scheme_of (Some "") = Raise IndexError.
Proof. reflexivity. Qed.

(** * Further properties *)

(** ** [multiply_aug] outside the block format *)

Lemma emit_nonpositive (factor : Z) (st : aug_state) :
  (factor <= 0)%Z -> emit factor st = Ok st.
Proof. intros Hf. unfold emit. now replace (Z.to_nat factor) with 0%nat by lia. Qed.

Lemma scan_nonpositive (factor : Z) (ls : list string) (st : aug_state) :
  (factor <= 0)%Z ->
  exists st', for_each (scan_line factor) ls st = Ok st' /\ res st' = res st.
Proof.
  intros Hf. revert st. induction ls as [|l ls IH]; intros st.
  - now exists st.
  - rewrite for_each_cons. unfold scan_line.
    destruct (Str.contains "augmentation" l).
    + assert (match cur_block st with
              | [] => Ok st
              | _ :: _ => emit factor st
              end = Ok st) as ->
        by (destruct (cur_block st); [reflexivity | now apply emit_nonpositive]).
      rewrite !bind_Ok.
      destruct (IH {| res := res st; cur_block := [l]; cnt := cnt st |})
        as (st' & Hst' & Hres).
      now exists st'.
    + rewrite bind_Ok.
      destruct (IH {| res := res st; cur_block := cur_block st ++ [l];
                      cnt := cnt st |}) as (st' & Hst' & Hres).
      now exists st'.
Qed.

(** With a factor that is not positive nothing is emitted and nothing is
    read back: the result is the empty list for every input. *)
Theorem multiply_aug_nonpositive (data_aug : list string) (factor : Z) :
  (factor <= 0)%Z -> multiply_aug data_aug factor = Ok [].
Proof.
  intros Hf. unfold multiply_aug.
  destruct (scan_nonpositive factor data_aug
              {| res := []; cur_block := []; cnt := 0 |} Hf)
    as (st' & -> & Hres).
  rewrite bind_Ok, emit_nonpositive, bind_Ok by exact Hf.
  now rewrite Hres.
Qed.

Lemma multiply_aug_nonpositive_witness :
  multiply_aug spec_example 0 = Ok [].
Proof. apply (multiply_aug_nonpositive spec_example 0). lia. Defined.

(** ** [multiply_aug] on blocks with fields of any width *)

Lemma str_app_empty (a b : string) : a +:+ b = "" -> a = "" /\ b = "".
Proof.
  destruct a; [rewrite str_app_nil_l; now intros -> |].
  rewrite str_app_cons. discriminate.
Qed.

(** A line that ends in a field and a blank has a last field. *)
Lemma split_go_has_last (a t cur : string) (nl : ascii) :
  Str.isspace nl = true -> Str.token t ->
  exists t', list.last (Str.split_go cur (a +:+ t +:+ String nl "")) = Some t'.
Proof.
  intros Hnl [Hne Ht]. revert cur. induction a as [|c a IH]; intros cur.
  - rewrite str_app_nil_l, split_go_run by assumption. simpl. rewrite Hnl.
    exists (cur +:+ t). simpl. rewrite app_nil_r, flush_token; [reflexivity |].
    intros Hemp. apply str_app_empty in Hemp as [_ ?]. contradiction.
  - rewrite str_app_cons. simpl. destruct (Str.isspace c).
    + destruct (IH "") as [t' Ht']. exists t'. now rewrite last_app, Ht'.
    + apply IH.
Qed.

(** Every header the source writes can be read back, whatever the width of
    its field. *)
Lemma aug_header_has_field (c : nat) (t : string) :
  Str.token t -> exists t', trailing (aug_header c t) = Some t'.
Proof.
  intros Ht. unfold trailing, Str.split.
  assert (aug_header c t =
          ("augmentation occupancies" +:+ Str.rjust 4 (Str.of_nat c)
           +:+ Str.spaces (4 - String.length t)) +:+ t +:+ String "010" "") as ->.
  { unfold aug_header, Str.rjust at 2, Str.newline.
    rewrite !str_app_assoc. reflexivity. }
  now apply split_go_has_last.
Qed.

(** [for _ in range(n)] on a pending block whose first line has a field:
    no exception, and [n] times the lines of the block are appended. *)
Lemma emit_lines (n : nat) (st : aug_state) (h t : string) (bd : list string) :
  cur_block st = h :: bd ->
  trailing h = Some t ->
  exists st' h' t',
    for_range n emit_once st = Ok st'
    /\ cur_block st' = h' :: bd
    /\ trailing h' = Some t'
    /\ cnt st' = cnt st + n
    /\ length (res st') = length (res st) + n * S (length bd).
Proof.
  revert st h t. induction n as [|n IH]; intros st h t Hcur Ht.
  - exists st, h, t. cbn [for_range]. repeat split; try assumption; lia.
  - cbn [for_range]. rewrite (emit_once_ok st h t bd Hcur Ht), bind_Ok.
    destruct (aug_header_has_field (S (cnt st)) t) as [t1 Ht1];
      [exact (last_split_token h t Ht) |].
    edestruct (IH {| res := res st ++ aug_header (S (cnt st)) t :: bd;
                     cur_block := aug_header (S (cnt st)) t :: bd;
                     cnt := S (cnt st) |})
      as (st' & h' & t' & Hrun & Hcur' & Ht' & Hcnt & Hlen);
      [reflexivity | exact Ht1 |].
    exists st', h', t'. cbn [res cnt] in Hcnt, Hlen.
    rewrite length_app in Hlen. cbn [length] in Hlen.
    repeat split; try assumption; lia.
Qed.

Lemma scan_blocks_lines (factor : Z) (bs : list block) :
  forall (st : aug_state) (h t : string) (bd : list string),
    cur_block st = h :: bd ->
    trailing h = Some t ->
    Forall (fun b => block_ok b = true) bs ->
    exists out,
      (st' ← for_each (scan_line factor) (lines_of bs) st;
       st'' ← emit factor st';
       Ok (res st'')) = Ok out
      /\ length out =
         length (res st)
         + Z.to_nat factor * (S (length bd) + length (lines_of bs)).
Proof.
  induction bs as [|b bs IH]; intros st h t bd Hcur Ht Hok.
  - destruct (emit_lines (Z.to_nat factor) st h t bd Hcur Ht)
      as (st' & h' & t' & Hrun & _ & _ & _ & Hlen).
    exists (res st'). cbn [lines_of map concat for_each].
    rewrite bind_Ok. unfold emit. rewrite Hrun, bind_Ok.
    split; [reflexivity |]. cbn [length]. lia.
  - apply Forall_cons_1 in Hok as [Hb Hok].
    apply block_ok_inv in Hb as (Hm & Htb & Hbody).
    destruct (emit_lines (Z.to_nat factor) st h t bd Hcur Ht)
      as (st1 & h1 & t1 & Hrun & _ & _ & _ & Hlen).
    change (for_range (Z.to_nat factor) emit_once st) with (emit factor st)
      in Hrun.
    rewrite lines_of_cons, for_each_cons.
    rewrite (scan_line_marker _ _ _ _ _ Hm Hcur).
    rewrite Hrun, !bind_Ok, for_each_app, scan_body, bind_Ok by assumption.
    cbn [res cur_block cnt app].
    destruct (IH {| res := res st1; cur_block := hdr b :: body b;
                    cnt := cnt st1 |} (hdr b) (field b) (body b)
                eq_refl Htb Hok) as (out & Hout & Hlen').
    exists out. split; [exact Hout |].
    rewrite Hlen'. cbn [res length]. rewrite length_app. lia.
Qed.

(** On one or more blocks, each introduced by a marker line, the
    renumbering never raises, whatever the width of the trailing fields,
    and its output has [factor] times the lines of the input. *)
Theorem multiply_aug_line_count (bs : list block) (factor : Z) :
  bs <> [] ->
  Forall (fun b => block_ok b = true) bs ->
  exists out,
    multiply_aug (lines_of bs) factor = Ok out
    /\ length out = Z.to_nat factor * length (lines_of bs).
Proof.
  destruct bs as [|b bs]; [congruence |]. intros _ Hok.
  apply Forall_cons_1 in Hok as [Hb Hok].
  apply block_ok_inv in Hb as (Hm & Ht & Hbody).
  unfold multiply_aug. rewrite lines_of_cons, for_each_cons.
  rewrite scan_line_first, bind_Ok by (assumption || reflexivity).
  rewrite for_each_app, scan_body, bind_Ok by assumption.
  cbn [res cur_block cnt app].
  destruct (scan_blocks_lines factor bs
              {| res := []; cur_block := hdr b :: body b; cnt := 0 |}
              (hdr b) (field b) (body b) eq_refl Ht Hok)
    as (out & Hout & Hlen).
  exists out. split; [exact Hout |].
  rewrite Hlen. cbn [res length]. rewrite length_app. cbn [length]. lia.
Qed.

Lemma multiply_aug_line_count_witness :
  exists out,
    multiply_aug (lines_of [wide_block]) 2 = Ok out /\ length out = 4.
Proof.
  apply (multiply_aug_line_count [wide_block] 2); [discriminate |].
  repeat constructor.
Defined.

(** ** [multiply_aug] on lines before the first marker *)

(** The scan with a pending block whose first line need not carry the
    marker: its first line is read for its last field all the same. *)
Lemma scan_blocks_pending (factor : Z) (bs : list block) :
  forall (b : block) (st : aug_state),
    trailing (hdr b) = Some (field b) ->
    Forall (fun b => block_ok b = true) bs ->
    Forall (fun b => String.length (field b) < 4) (b :: bs) ->
    cur_block st = block_lines b ->
    (st' ← for_each (scan_line factor) (lines_of bs) st;
     st'' ← emit factor st';
     Ok (res st''))
    = Ok (res st ++ renumber_from (Z.to_nat factor) (cnt st) (b :: bs)).
Proof.
  induction bs as [|b1 bs IH]; intros b st Ht Hok Hw Hcur.
  - destruct (emit_copies (Z.to_nat factor) st (hdr b) (field b) (body b))
      as [h' Hh']; [exact Hcur | exact Ht | |].
    { right. now apply Forall_cons_1 in Hw as [? _]. }
    cbn [lines_of map concat for_each renumber_from].
    rewrite bind_Ok. unfold emit. rewrite Hh', bind_Ok. cbn [res].
    now rewrite app_nil_r.
  - apply Forall_cons_1 in Hok as [Hb1 Hok].
    apply Forall_cons_1 in Hw as [Hwb Hw].
    destruct (emit_copies (Z.to_nat factor) st (hdr b) (field b) (body b))
      as [h' Hh']; [exact Hcur | exact Ht | now right |].
    change (for_range (Z.to_nat factor) emit_once st) with (emit factor st)
      in Hh'.
    apply block_ok_inv in Hb1 as (Hm1 & Ht1 & Hbody1).
    rewrite lines_of_cons, for_each_cons.
    rewrite (scan_line_marker _ _ _ _ _ Hm1 Hcur), Hh', !bind_Ok.
    rewrite for_each_app, scan_body, bind_Ok by assumption.
    cbn [res cur_block cnt].
    rewrite (IH b1); [| assumption | assumption | assumption | reflexivity].
    cbn [res cnt renumber_from]. now rewrite <- !app_assoc.
Qed.

(** Lines before the first marker line are taken as a block of their own:
    the first of them is not copied but replaced by a numbered header that
    carries its last field, and the blocks that follow are numbered after
    it. *)
Theorem multiply_aug_preamble (p t : string) (ps : list string)
    (bs : list block) (factor : Z) :
  Str.contains marker p = false ->
  trailing p = Some t ->
  String.length t < 4 ->
  forallb (fun l => negb (Str.contains marker l)) ps = true ->
  Forall (fun b => block_ok b = true) bs ->
  Forall (fun b => String.length (field b) < 4) bs ->
  multiply_aug (p :: ps ++ lines_of bs) factor =
  Ok (renumber (Z.to_nat factor)
        ({| hdr := p; field := t; body := ps |} :: bs)).
Proof.
  intros Hp Ht Hlen Hps Hok Hw. unfold multiply_aug.
  rewrite for_each_cons, scan_line_plain, bind_Ok by exact Hp.
  rewrite for_each_app, scan_body, bind_Ok by exact Hps.
  cbn [res cur_block cnt app].
  rewrite <- renumber_from_0.
  rewrite (scan_blocks_pending factor bs
             {| hdr := p; field := t; body := ps |});
    [reflexivity | exact Ht | exact Hok | | reflexivity].
  constructor; [exact Hlen | exact Hw].
Qed.

Lemma multiply_aug_preamble_witness :
  multiply_aug ("total 7" :: ["0.9"] ++ lines_of spec_blocks) 1 =
  Ok (renumber 1
        ({| hdr := "total 7"; field := "7"; body := ["0.9"] |} :: spec_blocks)).
Proof.
  apply (multiply_aug_preamble "total 7" "7" ["0.9"] spec_blocks 1);
    try reflexivity; try (simpl; lia); repeat constructor.
Defined.

(** ** [multiply_aug] on a blank first line *)

Lemma split_go_nonempty (s cur : string) :
  cur <> "" -> Str.split_go cur s <> [].
Proof.
  revert cur. induction s as [|c s IH]; intros cur Hcur; simpl.
  - now rewrite flush_token.
  - destruct (Str.isspace c).
    + now rewrite flush_token.
    + apply IH. unfold Str.snoc. intros Hemp.
      apply str_app_empty in Hemp as [_ ?]. discriminate.
Qed.

(** A line without a field does not carry the marker. *)
Lemma blank_no_marker (s : string) :
  Str.split s = [] -> Str.contains marker s = false.
Proof.
  unfold Str.split. induction s as [|c s IH]; intros Hs; [reflexivity |].
  simpl in Hs. destruct (Str.isspace c) eqn:Hc.
  - change (Str.contains marker (String c s))
      with (String.prefix marker (String c s) || Str.contains marker s).
    rewrite (IH Hs), orb_false_r.
    change (String.prefix marker (String c s))
      with (if ascii_dec "a" c then String.prefix "ugmentation" s else false).
    destruct (ascii_dec "a" c) as [<- | _]; [discriminate | reflexivity].
  - now apply split_go_nonempty in Hs.
Qed.

Lemma emit_blank (factor : Z) (st : aug_state) (p : string) (xs : list string) :
  (1 <= factor)%Z ->
  cur_block st = p :: xs ->
  Str.split p = [] ->
  emit factor st = Raise IndexError.
Proof.
  intros Hf Hcur Hp. unfold emit.
  destruct (Z.to_nat factor) as [|n] eqn:Hn; [lia |].
  cbn [for_range]. unfold emit_once. now rewrite Hcur, Hp.
Qed.

Lemma scan_blank (factor : Z) (p : string) (rest : list string) :
  (1 <= factor)%Z ->
  Str.split p = [] ->
  forall (st : aug_state) (xs : list string),
    cur_block st = p :: xs ->
    (st' ← for_each (scan_line factor) rest st;
     st'' ← emit factor st';
     Ok (res st'')) = Raise IndexError.
Proof.
  intros Hf Hp. induction rest as [|l rest IH]; intros st xs Hcur.
  - cbn [for_each]. rewrite bind_Ok.
    now rewrite (emit_blank factor st p xs).
  - rewrite for_each_cons.
    destruct (Str.contains marker l) eqn:Hl.
    + rewrite (scan_line_marker _ _ _ _ _ Hl Hcur).
      now rewrite (emit_blank factor st p xs).
    + rewrite scan_line_plain, bind_Ok by exact Hl.
      apply (IH _ (xs ++ [l])). cbn [cur_block]. now rewrite Hcur.
Qed.

(** When the first line of the input has no field at all (it is empty or
    blank) and [factor] is at least 1, the renumbering raises [IndexError]
    whatever follows that line. *)
Theorem multiply_aug_blank_first (p : string) (rest : list string)
    (factor : Z) :
  Str.split p = [] ->
  (1 <= factor)%Z ->
  multiply_aug (p :: rest) factor = Raise IndexError.
Proof.
  intros Hp Hf. unfold multiply_aug.
  rewrite for_each_cons, scan_line_plain, bind_Ok
    by now apply blank_no_marker.
  now apply (scan_blank factor p rest Hf Hp _ []).
Qed.

Lemma multiply_aug_blank_first_witness :
  multiply_aug (" " :: spec_example) 2 = Raise IndexError.
Proof.
  apply (multiply_aug_blank_first " " spec_example 2); [reflexivity | lia].
Defined.

(** ** Renumbering twice *)

Lemma contains_aug_header (k : nat) (t : string) :
  Str.contains marker (aug_header k t) = true.
Proof. reflexivity. Qed.

Lemma copies_add (n m idx : nat) (t : string) (bd : list string) :
  copies (n + m) idx t bd = copies n idx t bd ++ copies m (idx + n) t bd.
Proof.
  revert idx. induction n as [|n IH]; intros idx.
  - now rewrite Nat.add_0_r.
  - cbn [Nat.add copies]. rewrite IH, <- !app_assoc.
    now replace (S idx + n) with (idx + S n) by lia.
Qed.

Lemma renumber_from_app (f idx : nat) (l1 l2 : list block) :
  renumber_from f idx (l1 ++ l2) =
  renumber_from f idx l1 ++ renumber_from f (idx + length l1 * f) l2.
Proof.
  revert idx. induction l1 as [|b l1 IH]; intros idx.
  - cbn. now rewrite Nat.add_0_r.
  - cbn [app renumber_from length]. rewrite IH, <- app_assoc.
    now replace (idx + f + length l1 * f) with (idx + S (length l1) * f) by lia.
Qed.

(** Renumbering the copies of one block. *)
Lemma renumber_from_replicate (f1 f2 idx i : nat) (b : block) :
  renumber_from f2 idx
    (imap (fun k b => {| hdr := aug_header (S (i + k)) (field b);
                         field := field b; body := body b |})
          (replicate f1 b))
  = copies (f1 * f2) idx (field b) (body b).
Proof.
  revert idx i. induction f1 as [|f1 IH]; intros idx i; [reflexivity |].
  cbn [replicate]. rewrite imap_cons. cbn [renumber_from field body].
  rewrite (imap_ext _ (fun k b => {| hdr := aug_header (S (S i + k)) (field b);
                                      field := field b; body := body b |}));
    [| intros k x _; cbn; now rewrite Nat.add_succ_r].
  rewrite IH. cbn [Nat.mul]. now rewrite copies_add.
Qed.

Lemma renumber_from_renumbered (f1 f2 : nat) (bs : list block) :
  forall idx i,
    renumber_from f2 idx
      (imap (fun k b => {| hdr := aug_header (S (i + k)) (field b);
                           field := field b; body := body b |})
            (concat (map (replicate f1) bs)))
    = renumber_from (f1 * f2) idx bs.
Proof.
  induction bs as [|b bs IH]; intros idx i; [reflexivity |].
  cbn [map concat renumber_from]. rewrite imap_app, renumber_from_app.
  rewrite renumber_from_replicate, length_imap, length_replicate. f_equal.
  rewrite (imap_ext _ (fun k b => {| hdr := aug_header (S ((i + f1) + k)) (field b);
                                      field := field b; body := body b |}));
    [| intros k x _; cbn; now rewrite Nat.add_assoc].
  now rewrite IH.
Qed.

(** Renumbering by [f1] and then by [f2] is renumbering by [f1 * f2]. *)
Lemma renumber_renumbered (f1 f2 : nat) (bs : list block) :
  renumber f2 (renumbered f1 bs) = renumber (f1 * f2) bs.
Proof.
  rewrite <- !renumber_from_0. unfold renumbered.
  exact (renumber_from_renumbered f1 f2 bs 0 0).
Qed.

Lemma lines_of_imap (l : list block) :
  forall i,
    lines_of (imap (fun k b => {| hdr := aug_header (S (i + k)) (field b);
                                  field := field b; body := body b |}) l)
    = concat (imap (fun k => emitted (i + k)) l).
Proof.
  induction l as [|b l IH]; intros i; [reflexivity |].
  rewrite !imap_cons. rewrite lines_of_cons. cbn [concat hdr body].
  unfold emitted at 1. cbn [app]. do 2 f_equal.
  rewrite (imap_ext _ (fun k b => {| hdr := aug_header (S (S i + k)) (field b);
                                      field := field b; body := body b |}));
    [| intros k x _; cbn; now rewrite Nat.add_succ_r].
  rewrite IH. f_equal. apply imap_ext. intros k x _. cbn.
  now rewrite Nat.add_succ_r.
Qed.

(** The output of the renumbering is again made of blocks. *)
Lemma lines_of_renumbered (f : nat) (bs : list block) :
  lines_of (renumbered f bs) = renumber f bs.
Proof. unfold renumbered, renumber. apply (lines_of_imap _ 0). Qed.

Lemma elem_of_replicated (f : nat) (bs : list block) (b : block) :
  b ∈ concat (map (replicate f) bs) -> b ∈ bs.
Proof.
  induction bs as [|b0 bs IH]; cbn [map concat]; [trivial |].
  rewrite elem_of_app, elem_of_cons. intros [Hb | Hb]; [left | right; auto].
  now apply elem_of_replicate in Hb as [-> _].
Qed.

Lemma renumbered_ok (f : nat) (bs : list block) :
  Forall (fun b => block_ok b = true) bs ->
  Forall (fun b => String.length (field b) < 4) bs ->
  Forall (fun b => block_ok b = true) (renumbered f bs)
  /\ Forall (fun b => String.length (field b) < 4) (renumbered f bs).
Proof.
  intros Hok Hw. rewrite list.Forall_forall in Hok, Hw.
  unfold renumbered. split; apply Forall_lookup; intros k b' Hk;
    rewrite list_lookup_imap in Hk;
    destruct (concat (map (replicate f) bs) !! k) as [b|] eqn:Hb;
    try discriminate; injection Hk as <-;
    apply list_elem_of_lookup_2, elem_of_replicated in Hb.
  - destruct (block_ok_inv b (Hok b Hb)) as (_ & Ht & Hbody).
    unfold block_ok. cbn [hdr field body].
    rewrite contains_aug_header, Hbody, bool_decide_eq_true_2; [reflexivity |].
    apply aug_header_last; [now apply (last_split_token (hdr b)) |].
    now apply Hw.
  - cbn [field]. now apply Hw.
Qed.

Lemma renumbered_nonempty (f : nat) (bs : list block) :
  bs <> [] -> 1 <= f -> renumbered f bs <> [].
Proof.
  destruct bs as [|b bs]; [congruence |]. intros _ Hf.
  destruct f as [|f]; [lia |]. unfold renumbered. cbn [map concat replicate app].
  rewrite imap_cons. discriminate.
Qed.

Lemma to_nat_mul (f1 f2 : Z) :
  (1 <= f1)%Z -> Z.to_nat (f1 * f2) = Z.to_nat f1 * Z.to_nat f2.
Proof.
  intros Hf. destruct (Z.le_gt_cases 0 f2).
  - apply Z2Nat.inj_mul; lia.
  - replace (Z.to_nat f2) with 0%nat by lia.
    replace (Z.to_nat (f1 * f2)) with 0%nat by nia. lia.
Qed.

Lemma multiply_aug_narrow (bs : list block) (f : Z) :
  bs <> [] ->
  Forall (fun b => block_ok b = true) bs ->
  Forall (fun b => String.length (field b) < 4) bs ->
  multiply_aug (lines_of bs) f = Ok (renumber (Z.to_nat f) bs).
Proof.
  destruct bs as [|b bs']; [congruence |]. intros _ Hok Hw.
  apply multiply_aug_blocks; [exact Hok | now right].
Qed.

Lemma multiply_aug_twice (bs : list block) (f1 f2 : Z) :
  bs <> [] ->
  Forall (fun b => block_ok b = true) bs ->
  Forall (fun b => String.length (field b) < 4) bs ->
  (1 <= f1)%Z ->
  multiply_aug (renumber (Z.to_nat f1) bs) f2
  = Ok (renumber (Z.to_nat (f1 * f2)) bs).
Proof.
  intros Hne Hok Hw Hf.
  destruct (renumbered_ok (Z.to_nat f1) bs Hok Hw) as [Hok' Hw'].
  assert (renumbered (Z.to_nat f1) bs <> []) as Hne'
    by (apply renumbered_nonempty; [exact Hne | lia]).
  rewrite <- lines_of_renumbered.
  rewrite multiply_aug_narrow by assumption.
  rewrite renumber_renumbered. now rewrite to_nat_mul.
Qed.

(** Renumbering by [f1 >= 1] and renumbering the result by [f2] gives what
    renumbering by [f1 * f2] gives at once (trailing fields shorter than
    four characters). *)
Theorem multiply_aug_compose (bs : list block) (f1 f2 : Z) :
  bs <> [] ->
  Forall (fun b => block_ok b = true) bs ->
  Forall (fun b => String.length (field b) < 4) bs ->
  (1 <= f1)%Z ->
  (out ← multiply_aug (lines_of bs) f1; multiply_aug out f2)
  = multiply_aug (lines_of bs) (f1 * f2).
Proof.
  intros Hne Hok Hw Hf.
  rewrite !multiply_aug_narrow, bind_Ok by assumption.
  now apply multiply_aug_twice.
Qed.

Lemma multiply_aug_compose_witness :
  (out ← multiply_aug spec_example 2; multiply_aug out 3)
  = multiply_aug spec_example 6.
Proof.
  apply (multiply_aug_compose spec_blocks 2 3);
    [discriminate | repeat constructor | repeat constructor; simpl; lia | lia].
Defined.

(** The output of a renumbering by [factor >= 1] is a fixed point of the
    renumbering by 1: numbering it again changes nothing (trailing fields
    shorter than four characters). *)
Theorem multiply_aug_fixed_point (bs : list block) (factor : Z)
    (out : list string) :
  bs <> [] ->
  Forall (fun b => block_ok b = true) bs ->
  Forall (fun b => String.length (field b) < 4) bs ->
  (1 <= factor)%Z ->
  multiply_aug (lines_of bs) factor = Ok out ->
  multiply_aug out 1 = Ok out.
Proof.
  intros Hne Hok Hw Hf Hout.
  rewrite multiply_aug_narrow in Hout by assumption. injection Hout as <-.
  rewrite (multiply_aug_twice bs factor 1) by assumption.
  now rewrite Z.mul_1_r.
Qed.

Lemma multiply_aug_fixed_point_witness :
  multiply_aug (renumber 2 spec_blocks) 1 = Ok (renumber 2 spec_blocks).
Proof.
  apply (multiply_aug_fixed_point spec_blocks 2);
    [discriminate | repeat constructor | repeat constructor; simpl; lia | lia |].
  vm_compute. reflexivity.
Defined.

(** ** Normalizing and scaling back *)

Lemma div_mul_cancel (a : ndarray) (v : R) :
  v <> 0%R -> np.div (np.mul a v) v = a.
Proof.
  intros Hv. destruct a as [sh fl]. unfold np.mul, np.div. cbn [shape flat].
  f_equal. rewrite map_map. rewrite <- (map_id fl) at 2.
  apply map_ext. intros x. now field.
Qed.

Section MoreConstruction.

Context {ext : External}.

(** On a cell of non-zero volume [_scale_data], given the scheme of the
    aggregate, undoes [_normalize_data], and [_normalize_data] undoes
    [_scale_data]; under a name that is no scheme both compositions raise
    the exception of the first call. *)
Theorem normalize_scale_round_trip (self : ChargeDensity) (g : ndarray) :
  volume (structure self) <> 0%R ->
  (a ← _normalize_data self g; _scale_data self a (normalization self))
  = (_ ← scheme_of (normalization self); Ok g)
  /\ (a ← _scale_data self g (normalization self); _normalize_data self a)
     = (_ ← scheme_of (normalization self); Ok g).
Proof.
  intros Hv. split.
  - rewrite normalize_data_dispatch.
    destruct (scheme_of (normalization self)) as [sc|e] eqn:Hsc; [|reflexivity].
    rewrite !bind_Ok, scale_data_scheme, Hsc, bind_Ok.
    destruct sc; cbn [scaled]; [reflexivity |]. now rewrite mul_div_cancel.
  - rewrite scale_data_scheme.
    destruct (scheme_of (normalization self)) as [sc|e] eqn:Hsc; [|reflexivity].
    rewrite !bind_Ok, normalize_data_dispatch, Hsc, bind_Ok.
    destruct sc; cbn [scaled]; [reflexivity |]. now rewrite div_mul_cancel.
Qed.

(** A dict that passes the lattice comprehension holds [PGrid]s only. *)
Lemma pgrids_lattices_inv (d : gmap string value) (ls : list (mat3 R)) :
  pgrids_lattices d = Ok ls -> exists m : gmap string PGrid.t, d = VPGrid <$> m.
Proof.
  unfold pgrids_lattices. revert ls.
  apply (map_fold_weak_ind (fun r d => forall ls, r = Ok ls ->
           exists m : gmap string PGrid.t, d = VPGrid <$> m)).
  - intros ls _. exists ∅. now rewrite fmap_empty.
  - intros i v d' r Hi IH ls Hr. destruct r as [ls'|e]; [|discriminate].
    destruct (IH ls' eq_refl) as [m ->].
    destruct v as [g|a]; [|discriminate].
    exists (<[i := g]> m). now rewrite fmap_insert.
Qed.

(** A dict with an array among its values fails the comprehension. *)
Lemma pgrids_lattices_has_array (d : gmap string value) :
  (exists k a, d !! k = Some (VArray a)) ->
  pgrids_lattices d = Raise AttributeError.
Proof.
  intros (k & a & Hk).
  destruct (pgrids_lattices d) as [ls|e] eqn:Hd.
  - apply pgrids_lattices_inv in Hd as [m ->].
    rewrite lookup_fmap in Hk. now destruct (m !! k).
  - revert e Hd. unfold pgrids_lattices.
    apply (map_fold_weak_ind (fun r d => forall e, r = Raise e ->
             Raise (A := list (mat3 R)) e = Raise AttributeError)).
    + discriminate.
    + intros i v d' r Hi IH e Hr. destruct r as [ls'|e'].
      * destruct v; [discriminate |]. cbn in Hr. now injection Hr as <-.
      * cbn in Hr. injection Hr as <-. now apply IH.
Qed.

Lemma new_array_raises (l : loc) (s : Structure) (n : option string)
    (w : world) :
  (exists k a, deref w l !! k = Some (VArray a)) ->
  new l s n w = (w, Raise AttributeError).
Proof.
  intros Harr. unfold new, __post_init__. cbn [pgrids].
  now rewrite pgrids_lattices_has_array.
Qed.

(** A dict that already holds an array under some name is rejected with
    [AttributeError], and the store is left as it was. *)
Theorem new_rejects_arrays (l : loc) (s : Structure) (n : option string)
    (w : world) (k : string) (a : ndarray) :
  deref w l !! k = Some (VArray a) ->
  new l s n w = (w, Raise AttributeError).
Proof. intros Hk. apply new_array_raises. now exists k, a. Qed.

(** Under a supported scheme the normalization loop cannot raise. *)
Lemma normalize_loop_succeeds (self : ChargeDensity) (sc : scheme)
    (m : gmap string PGrid.t) (w : world) :
  scheme_of (normalization self) = Ok sc ->
  exists w', map_fold (normalize_item self) (w, Ok tt) (VPGrid <$> m)
             = (w', Ok tt).
Proof.
  intros Hsc. rewrite map_fold_fmap.
  apply (map_fold_weak_ind (fun r (_ : gmap string PGrid.t) =>
           exists w', r = (w', Ok tt))).
  - now exists w.
  - intros i g m' r Hi [w' ->]. cbn [compose]. unfold normalize_item.
    cbn [get_grid_data]. rewrite bind_Ok, normalize_data_dispatch, Hsc, bind_Ok.
    eexists. reflexivity.
Qed.

(** A construction that fails -- on the lattices, on the scheme name or on
    a value that is no [PGrid] -- has changed nothing in the store: the
    caller's dict is as it was. *)
Theorem new_failure_atomic (l : loc) (s : Structure) (n : option string)
    (w : world) (e : exn) :
  snd (new l s n w) = Raise e -> fst (new l s n w) = w.
Proof.
  unfold new, __post_init__. cbn [pgrids structure normalization].
  destruct (pgrids_lattices (deref w l)) as [ls|e'] eqn:Hd; [|reflexivity].
  destruct (forallb _ ls); [|reflexivity].
  apply pgrids_lattices_inv in Hd as [m ->].
  set (self := {| pgrids := l; structure := s; normalization := n |}).
  destruct (scheme_of n) as [sc|e'] eqn:Hsc.
  - destruct (normalize_loop_succeeds self sc m w Hsc) as [w' ->].
    discriminate.
  - rewrite (normalize_loop_raise self e' m w Hsc).
    now case_bool_decide.
Qed.

End MoreConstruction.

Lemma normalize_scale_round_trip_witness :
  let g := {| shape := [1; 1; 1]%nat; flat := [1]%R |} in
  (a ← _normalize_data built g; _scale_data built a (normalization built))
  = Ok g.
Proof.
  intros g.
  apply (normalize_scale_round_trip (ext := cell_only) built g).
  unfold built, cubic. cbn [structure]. rewrite volume_diag3; lra.
Defined.

Lemma new_failure_atomic_witness :
  let s := diag3 2 2 2 in
  let g := one_point s 1 in
  fst (new (ext := cell_only) caller_loc s (Some "x") (caller_world g))
  = caller_world g.
Proof.
  intros s g.
  apply (new_failure_atomic (ext := cell_only) caller_loc s (Some "x")
           (caller_world g) NotImplementedError).
  rewrite (new_spec (ext := cell_only) caller_loc s (Some "x") {[ "total" := g ]})
    by apply caller_world_dict.
  rewrite bool_decide_eq_true_2 by apply lattices_agree_same.
  cbn [scheme_of Ascii.eqb]. cbn.
  rewrite bool_decide_eq_false_2; [reflexivity |].
  apply (insert_non_empty (M := gmap string) ∅ "total" g).
Defined.

Lemma built_world_total :
  deref built_world caller_loc !! "total"
  = Some (VArray {| shape := [1; 1; 1]%nat; flat := [1 / 8]%R |}).
Proof.
  unfold deref, built_world. cbn [heap].
  now rewrite lookup_total_singleton_eq, lookup_singleton_eq.
Qed.

Lemma new_rejects_arrays_witness :
  new (ext := cell_only) caller_loc cubic (Some "vasp") built_world
  = (built_world, Raise AttributeError).
Proof.
  exact (new_rejects_arrays (ext := cell_only) caller_loc cubic (Some "vasp")
           built_world "total" _ built_world_total).
Defined.

(** ** What a successful construction leaves behind *)

Lemma scaled_div_shape (v : R) (sc : scheme) (a : ndarray) :
  shape (scaled np.div v sc a) = shape a
  /\ length (flat (scaled np.div v sc a)) = length (flat a).
Proof.
  destruct sc; cbn [scaled np.div shape flat]; [tauto |].
  now rewrite length_map.
Qed.

Section ConstructionFrame.

Context {ext : External}.

(** A successful construction keeps the names of the caller's dict, binds
    each of them to an array with the shape and the number of entries of the
    grid it replaces, stores the three arguments on the object, and touches
    nothing else: no other dict, no address, no warning. *)
Theorem new_success_frame (l : loc) (s : Structure) (n : option string)
    (m : gmap string PGrid.t) (w w' : world) (self : ChargeDensity) :
  heap w !! l = Some (VPGrid <$> m) ->
  new l s n w = (w', Ok self) ->
  self = {| pgrids := l; structure := s; normalization := n |}
  /\ dom (deref w' l) = dom m
  /\ (forall k g, m !! k = Some g ->
        exists a, deref w' l !! k = Some (VArray a)
                  /\ shape a = shape (PGrid.grid_data g)
                  /\ length (flat a) = length (flat (PGrid.grid_data g)))
  /\ (forall l', l' <> l -> deref w' l' = deref w l')
  /\ next w' = next w
  /\ warnings w' = warnings w.
Proof.
  intros Hd Hnew. rewrite (new_spec l s n m w Hd) in Hnew.
  case_bool_decide; [|discriminate].
  destruct (scheme_of n) as [sc|e] eqn:Hsc.
  - injection Hnew as <- <-. split; [reflexivity |].
    rewrite deref_store. split; [apply dom_fmap_L |]. split.
    + intros k g Hk. eexists. rewrite lookup_fmap, Hk. cbn.
      split; [reflexivity |]. apply scaled_div_shape.
    + split; [| split; reflexivity].
      intros l' Hl'. now apply deref_store_ne.
  - case_bool_decide as Hm; [|discriminate].
    injection Hnew as <- <-. subst m. rewrite fmap_empty in Hd.
    split; [reflexivity |]. rewrite (deref_Some _ _ _ Hd).
    split; [reflexivity |]. split; [| repeat split].
    intros k g Hk. now rewrite lookup_empty in Hk.
Qed.

(** A dict can be used for one construction only: after a successful
    construction from a dict that is not empty, every further construction
    from the same dict raises [AttributeError], whatever structure and scheme
    it is given. *)
Theorem new_not_repeatable (l : loc) (s s' : Structure)
    (n n' : option string) (m : gmap string PGrid.t) (w w' : world)
    (self : ChargeDensity) :
  heap w !! l = Some (VPGrid <$> m) ->
  m <> ∅ ->
  new l s n w = (w', Ok self) ->
  new l s' n' w' = (w', Raise AttributeError).
Proof.
  intros Hd Hm Hnew. apply new_array_raises.
  rewrite (new_spec l s n m w Hd) in Hnew.
  case_bool_decide; [|discriminate].
  destruct (scheme_of n) as [sc|e] eqn:Hsc.
  - injection Hnew as <- _. rewrite deref_store.
    destruct (map_choose m Hm) as (k & g & Hk).
    exists k. eexists. rewrite lookup_fmap, Hk. reflexivity.
  - rewrite bool_decide_eq_false_2 in Hnew by exact Hm. discriminate.
Qed.

(** The export never consults the declared scheme: on an aggregate whose
    dict holds arrays it succeeds for every value of [normalization], also a
    name that is no scheme, and hands over the structure of the aggregate
    and, under exactly the names of [pgrids], every array times the
    volume. *)
Theorem to_Chgcar_any_scheme (self : ChargeDensity)
    (am : gmap string ndarray) (w : world) :
  deref w (pgrids self) = VArray <$> am ->
  exists c,
    to_Chgcar self w = Ok c
    /\ chg_structure c = structure self
    /\ dom (chg_data c) = dom am
    /\ forall k a, am !! k = Some a ->
         chg_data c !! k = Some (np.mul a (volume (structure self))).
Proof.
  intros Hd. rewrite (to_Chgcar_arrays self am w Hd). eexists.
  split; [reflexivity |]. cbn [chg_structure chg_data].
  split; [reflexivity |]. split; [apply dom_fmap_L |].
  intros k a Hk. now rewrite lookup_fmap, Hk.
Qed.

(** A matrix of integers is used as it is, and without a warning. *)
Theorem get_transformed_integer_matrix (self : ChargeDensity) (zm : mat3 Z)
    (origin : vec3 R) (grid_out : grid_spec) (up_sample : Z) (w : world) :
  round_sc_mat (mat3_map IZR zm) = zm
  /\ warnings
       (fst (get_transformed self (mat3_map IZR zm) origin grid_out
               up_sample w)) = warnings w.
Proof.
  assert (mat3_map np.round (mat3_map IZR zm) = mat3_map IZR zm) as Hround.
  { destruct zm as [[[[a b] c] [[d e] f]] [[g h] i]].
    cbn [mat3_map vec3_map]. unfold np.round. now rewrite !rint_IZR. }
  split.
  - rewrite round_sc_mat_rint.
    destruct zm as [[[[a b] c] [[d e] f]] [[g h] i]].
    cbn [mat3_map vec3_map]. now rewrite !rint_IZR.
  - rewrite get_transformed_spec. cbn zeta.
    assert (checked (mat3_map IZR zm) w = w) as ->.
    { unfold checked. now rewrite Hround, allclose_refl. }
    now destruct (get_transformed_data _ _ _ _ _ _).
Qed.

End ConstructionFrame.

Lemma new_cubic_vasp :
  exists w' self,
    new (ext := cell_only) caller_loc cubic (Some "vasp")
      (caller_world (one_point cubic 1)) = (w', Ok self).
Proof.
  rewrite (new_spec (ext := cell_only) caller_loc cubic (Some "vasp")
             {[ "total" := one_point cubic 1 ]})
    by apply caller_world_dict.
  rewrite bool_decide_eq_true_2 by apply lattices_agree_same.
  eexists _, _. reflexivity.
Qed.

Lemma new_success_frame_witness :
  exists w' self,
    new (ext := cell_only) caller_loc cubic (Some "vasp")
      (caller_world (one_point cubic 1)) = (w', Ok self)
    /\ dom (deref w' caller_loc) = {[ "total" ]}
    /\ next w' = 2%positive.
Proof.
  destruct new_cubic_vasp as (w' & self & Hnew). exists w', self.
  destruct (new_success_frame (ext := cell_only) caller_loc cubic
              (Some "vasp") {[ "total" := one_point cubic 1 ]}
              (caller_world (one_point cubic 1)) w' self
              (caller_world_dict _) Hnew)
    as (_ & Hdom & _ & _ & Hnext & _).
  split; [exact Hnew |]. split; [| exact Hnext].
  rewrite Hdom. apply dom_singleton_L.
Defined.

Lemma new_not_repeatable_witness :
  exists w' self,
    new (ext := cell_only) caller_loc cubic (Some "vasp")
      (caller_world (one_point cubic 1)) = (w', Ok self)
    /\ new (ext := cell_only) caller_loc cubic (Some "vasp") w'
       = (w', Raise AttributeError).
Proof.
  destruct new_cubic_vasp as (w' & self & Hnew). exists w', self.
  split; [exact Hnew |].
  apply (new_not_repeatable (ext := cell_only) caller_loc cubic cubic
           (Some "vasp") (Some "vasp") {[ "total" := one_point cubic 1 ]}
           (caller_world (one_point cubic 1)) w' self
           (caller_world_dict _)); [| exact Hnew].
  apply (insert_non_empty (M := gmap string) ∅ "total").
Defined.

Lemma built_world_arrays :
  deref built_world (pgrids built)
  = VArray <$> {[ "total" := {| shape := [1; 1; 1]%nat; flat := [1 / 8]%R |} ]}.
Proof.
  unfold deref, built_world, built. cbn [heap pgrids].
  now rewrite lookup_total_singleton_eq, map_fmap_singleton.
Qed.

Lemma to_Chgcar_any_scheme_witness :
  exists c,
    to_Chgcar built built_world = Ok c
    /\ dom (chg_data c) = {[ "total" ]}.
Proof.
  destruct (to_Chgcar_any_scheme built _ built_world built_world_arrays)
    as (c & Hc & _ & Hdom & _).
  exists c. split; [exact Hc |]. rewrite Hdom. apply dom_singleton_L.
Defined.

(** ** The derived grid as a function of the count *)

Lemma grid_mult_pos (lengths : vec3 R) (vol : R) (n : Z) :
  (0 < grid_mult lengths vol n)%R.
Proof. apply exp_pos. Qed.

(** A larger count gives a scale factor that is not larger. *)
Lemma grid_mult_antitone (a b c vol : R) (n1 n2 : Z) :
  (0 < a)%R -> (0 < b)%R -> (0 < c)%R -> (0 < vol)%R ->
  (0 < n1)%Z -> (n1 <= n2)%Z ->
  (grid_mult (a, b, c) vol n2 <= grid_mult (a, b, c) vol n1)%R.
Proof.
  intros Ha Hb Hc Hvol Hn1 Hn. unfold grid_mult. cbn [np.prod].
  assert (0 < IZR n1)%R as Hn1' by now apply IZR_lt.
  assert (IZR n1 <= IZR n2)%R as Hn' by now apply IZR_le.
  assert (0 < a * b * c)%R as Hp by (repeat apply Rmult_lt_0_compat; assumption).
  assert (0 < IZR n1 / vol)%R as Hg1 by now apply Rdiv_lt_0_compat.
  assert (IZR n1 / vol <= IZR n2 / vol)%R as Hg.
  { unfold Rdiv. apply Rmult_le_compat_r; [|exact Hn'].
    left. now apply Rinv_0_lt_compat. }
  apply Rle_Rpower_l; [lra |]. split.
  - apply Rdiv_lt_0_compat; lra.
  - unfold Rdiv. apply Rmult_le_compat_l; [lra |].
    apply Rinv_le_contravar; assumption.
Qed.

(** Asking for more points never gives fewer points on any axis. *)
Theorem derive_grid_monotone (a b c vol : R) (n1 n2 : Z) :
  (0 < a)%R -> (0 < b)%R -> (0 < c)%R -> (0 < vol)%R ->
  (0 < n1)%Z -> (n1 <= n2)%Z ->
  Forall2 Z.le (derive_grid (a, b, c) vol n1) (derive_grid (a, b, c) vol n2).
Proof.
  intros Ha Hb Hc Hvol Hn1 Hn.
  pose proof (grid_mult_antitone a b c vol n1 n2 Ha Hb Hc Hvol Hn1 Hn) as Hm.
  pose proof (grid_mult_pos (a, b, c) vol n1) as Hp1.
  pose proof (grid_mult_pos (a, b, c) vol n2) as Hp2.
  unfold derive_grid. cbn [vec3_list map]. rewrite !floor_py_max.
  assert (forall l, (0 < l)%R ->
            (Z.max (Zfloor (l / grid_mult (a, b, c) vol n1)) 1
             <= Z.max (Zfloor (l / grid_mult (a, b, c) vol n2)) 1)%Z) as Hax.
  { intros l Hl. apply Z.max_le_compat_r, Zfloor_le.
    unfold Rdiv. apply Rmult_le_compat_l; [lra |].
    now apply Rinv_le_contravar. }
  repeat constructor; now apply Hax.
Qed.

Lemma derive_grid_monotone_witness :
  Forall2 Z.le (derive_grid (2, 2, 2)%R 8 1000) (derive_grid (2, 2, 2)%R 8 2000).
Proof. apply (derive_grid_monotone 2 2 2 8 1000 2000); lra || lia. Defined.

(** The floor of a quotient that is at least 1, as a real number. *)
Lemma floor_quotient_bounds (l mult : R) :
  (0 < mult)%R -> (mult <= l)%R ->
  (1 <= IZR (Z.max (Zfloor (l / mult)) 1) <= l / mult)%R.
Proof.
  intros Hm Hl.
  assert (1 <= l / mult)%R as Hq.
  { apply (Rmult_le_reg_r mult); [exact Hm |].
    unfold Rdiv. rewrite Rmult_assoc, Rinv_l, Rmult_1_r by lra. lra. }
  pose proof (Zfloor_bound (l / mult)) as [Hlo _].
  assert (1 <= Zfloor (l / mult))%Z as Hf by (apply Zfloor_lub; lra).
  rewrite Z.max_l by lia. split; [|exact Hlo].
  now apply IZR_le in Hf.
Qed.

(** When no axis is clamped to one point (every cell length is at least
    the scale factor), the derived grid has at most [grid_out / volume]
    points in all. *)
Theorem derive_grid_total (a b c vol : R) (n : Z) :
  (0 < a)%R -> (0 < b)%R -> (0 < c)%R -> (0 < vol)%R -> (0 < n)%Z ->
  (grid_mult (a, b, c) vol n <= a)%R ->
  (grid_mult (a, b, c) vol n <= b)%R ->
  (grid_mult (a, b, c) vol n <= c)%R ->
  (IZR (foldr Z.mul 1%Z (derive_grid (a, b, c) vol n)) <= IZR n / vol)%R.
Proof.
  intros Ha Hb Hc Hvol Hn Hma Hmb Hmc.
  destruct (derive_grid_spec_aux a b c vol n Ha Hb Hc Hvol Hn)
    as (Hpos & Hcube & Hgrid).
  set (mult := grid_mult (a, b, c) vol n) in *.
  rewrite Hgrid. cbn [map foldr]. rewrite Z.mul_1_r, !mult_IZR.
  destruct (floor_quotient_bounds a mult Hpos Hma) as [Ha1 Ha2].
  destruct (floor_quotient_bounds b mult Hpos Hmb) as [Hb1 Hb2].
  destruct (floor_quotient_bounds c mult Hpos Hmc) as [Hc1 Hc2].
  rewrite <- Hcube. cbn [np.prod].
  replace (a * b * c / mult ^ 3)%R
    with (a / mult * (b / mult * (c / mult)))%R by (field; lra).
  apply Rmult_le_compat; try lra.
  - apply Rmult_le_pos; lra.
  - apply Rmult_le_compat; lra.
Qed.

Lemma derive_grid_total_witness :
  (IZR (foldr Z.mul 1%Z (derive_grid (2, 2, 2)%R 8 2000)) <= 2000 / 8)%R.
Proof.
  assert (grid_mult (2, 2, 2)%R 8 2000 <= 2)%R as Hm.
  { destruct (derive_grid_spec_aux 2 2 2 8 2000) as (Hpos & Hcube & _);
      try lra; try lia.
    set (mult := grid_mult (2, 2, 2)%R 8 2000) in *. cbn [np.prod] in Hcube.
    destruct (Rle_dec mult 2) as [|Hgt]; [assumption | exfalso].
    assert (2 < mult)%R by lra.
    assert (4 < mult * mult)%R by nra.
    assert (8 < mult ^ 3)%R by (simpl; nra).
    assert (2 * 2 * 2 / mult ^ 3 < 1)%R; [|lra].
    apply (Rmult_lt_reg_r (mult ^ 3)); [lra |].
    unfold Rdiv. rewrite Rmult_assoc, Rinv_l by lra. lra. }
  apply (derive_grid_total 2 2 2 8 2000); try lra; try lia; exact Hm.
Defined.

(** ** [ChargeABC] *)

Lemma py_all_pure {A} (p : A -> bool) (l : list A) :
  py_all (fun x => Ok (p x)) l = Ok (forallb p l).
Proof.
  induction l as [|x l IH]; [reflexivity |].
  cbn [py_all forallb]. rewrite bind_Ok. destruct (p x); [exact IH | reflexivity].
Qed.

(** [ChargeABC.__post_init__] compares every lattice with the first one.
    On the empty mapping the comparison is vacuous and the assignment of
    [lattices[0]] raises [IndexError]; otherwise it raises [ValueError] when
    some later lattice is not close to the first, and else binds the first
    lattice. *)
Theorem ChargeABC_post_init_spec (pgrids : list (string * PGrid.t)) :
  ChargeABC.__post_init__ pgrids =
  match pgrids with
  | [] => Raise IndexError
  | (_, g0) :: rest =>
      if forallb (fun kv => np.allclose (PGrid.lattice g0)
                              (PGrid.lattice (snd kv))) rest
      then Ok (PGrid.lattice g0)
      else Raise ValueError
  end.
Proof.
  unfold ChargeABC.__post_init__. destruct pgrids as [|[k0 g0] rest];
    [reflexivity |].
  cbn [map snd index0]. set (l0 := PGrid.lattice g0).
  assert ((fun lattice : mat3 R =>
             Ok l0 ≫= fun l0' => Ok (np.allclose l0' lattice))
          = (fun lattice => Ok (np.allclose l0 lattice))) as -> by reflexivity.
  rewrite py_all_pure. cbn [forallb]. rewrite allclose_refl, bind_Ok.
  cbn [andb].
  assert (forallb (np.allclose l0)
            (map (fun kv : string * PGrid.t => PGrid.lattice (snd kv)) rest)
          = forallb (fun kv => np.allclose l0 (PGrid.lattice (snd kv))) rest)
    as ->.
  { induction rest as [|kv rest IH]; [reflexivity |].
    cbn [map forallb]. now rewrite IH. }
  destruct (forallb _ rest); reflexivity.
Qed.
